(** * scoped_ptr.h: exclusive-ownership wrappers [scoped_ptr] and [scoped_array]

    A shallow embedding of [src/base/scoped_ptr.h].  A wrapper object is a
    C++ object with one pointer field; its member functions receive the
    object through [this] and other wrappers by reference, so objects live
    in a store indexed by object identity and two references may alias.
    The only effects of the member functions are writes to those fields,
    the delete-expressions [delete p] and [delete[] p], and [assert]. *)

From stdpp Require Import gmap list fin_maps.

(** ** Pointers, the allocator interface and the object store *)

(** A raw pointer [C*] is an address; [nullptr] is address zero.  Pointer
    comparison ([==], [!=]) is comparison of addresses. *)
Abbreviation ptr := N.
Definition nullptr : ptr := 0%N.

(** Identity of a wrapper object (where [this] points). *)
Abbreviation obj := nat.

(** Calls into the deallocation side of the allocator.  The header has no
    new-expression, so these are the only allocator calls it can make. *)
Inductive event : Type :=
  | Delete (p : ptr)        (* delete p;   single-object deallocation *)
  | DeleteArray (p : ptr).  (* delete[] p; array deallocation *)

Global Instance event_eq_dec : EqDecision event.
Proof. solve_decision. Defined.

(** The two classes of the header, each with its one private field. *)
Inductive object : Type :=
  | scoped_ptr_obj (ptr_ : ptr)
  | scoped_array_obj (array_ : ptr).

Global Instance object_eq_dec : EqDecision object.
Proof. solve_decision. Defined.

(** Live wrapper objects and the log of deallocation calls, oldest first. *)
Record mem : Type := Mem {
  objs : gmap obj object;
  trace : list event
}.

(** A [C&]: the element [index] of the storage at [base]. *)
Record lvalue : Type := LValue {
  base : ptr;
  index : Z
}.

(** Result of running code: normal return, termination by a failed
    [assert] (the store as it was at that point), or [Stuck] when the code
    touches an object that is not alive or not of the expected class, which
    no well-typed, well-scoped C++ program does. *)
Inductive outcome (A : Type) : Type :=
  | Ok (a : A) (m : mem)
  | Abort (m : mem)
  | Stuck.
Arguments Ok {A} a m.
Arguments Abort {A} m.
Arguments Stuck {A}.

Definition M (A : Type) : Type := mem → outcome A.

Global Instance M_ret : MRet M := λ A a m, Ok a m.

Global Instance M_bind : MBind M := λ A B f x m,
  match x m with
  | Ok a m' => f a m'
  | Abort m' => Abort m'
  | Stuck => Stuck
  end.

(** The store reached by a run, if it is a run of a well-formed program. *)
Definition final {A : Type} (r : outcome A) : option mem :=
  match r with
  | Ok _ m => Some m
  | Abort m => Some m
  | Stuck => None
  end.

(** [delete p]: on a null pointer a delete-expression has no effect (the
    destructors rely on it: "We don't need to test ptr_ == nullptr because
    C++ does that for us"); otherwise the deallocation is logged. *)
Definition delete_ (p : ptr) : M unit := λ m,
  if bool_decide (p = nullptr) then Ok () m
  else Ok () (Mem (objs m) (trace m ++ [Delete p])).

(** [delete[] p]. *)
Definition delete_array (p : ptr) : M unit := λ m,
  if bool_decide (p = nullptr) then Ok () m
  else Ok () (Mem (objs m) (trace m ++ [DeleteArray p])).

(** [assert(e)] of <assert.h>: with the macro NDEBUG defined the statement
    expands to nothing; otherwise a false [e] terminates the program. *)
Definition assert_ (NDEBUG : bool) (e : bool) : M unit := λ m,
  if NDEBUG then Ok () m
  else if e then Ok () m else Abort m.

(** Start of an object's lifetime at [this], with its field initialised. *)
Definition construct (this : obj) (o : object) : M unit := λ m,
  match objs m !! this with
  | None => Ok () (Mem (<[this := o]> (objs m)) (trace m))
  | Some _ => Stuck
  end.

(** End of the lifetime of the object at [this]. *)
Definition destroy (this : obj) : M unit := λ m,
  match objs m !! this with
  | Some _ => Ok () (Mem (delete this (objs m)) (trace m))
  | None => Stuck
  end.

(** [std::ptrdiff_t] is a 64-bit signed integer: a value converted to it
    wraps around into [-2^63, 2^63). *)
Definition ptrdiff_t (i : Z) : Z := ((i + 2 ^ 63) `mod` 2 ^ 64 - 2 ^ 63)%Z.

(** ** template <class C> class scoped_ptr *)

Module scoped_ptr.

(** Read and write of the private field [C* ptr_]. *)
Definition ptr_ (this : obj) : M ptr := λ m,
  match objs m !! this with
  | Some (scoped_ptr_obj p) => Ok p m
  | _ => Stuck
  end.

Definition set_ptr_ (this : obj) (v : ptr) : M unit := λ m,
  match objs m !! this with
  | Some (scoped_ptr_obj _) =>
      Ok () (Mem (<[this := scoped_ptr_obj v]> (objs m)) (trace m))
  | _ => Stuck
  end.

(** [explicit scoped_ptr(C* p = nullptr) : ptr_(p) { }] *)
Definition ctor (this : obj) (p : ptr) : M unit :=
  construct this (scoped_ptr_obj p).

(** [~scoped_ptr() { delete ptr_; }] *)
Definition dtor (this : obj) : M unit :=
  p ← ptr_ this;
  delete_ p;;
  destroy this.

(** [void reset(C* p = nullptr)] *)
Definition reset (this : obj) (p : ptr) : M unit :=
  cur ← ptr_ this;
  if bool_decide (p ≠ cur) then
    delete_ cur;;
    set_ptr_ this p
  else mret ().

(** [C& operator*() const] *)
Definition op_star (NDEBUG : bool) (this : obj) : M lvalue :=
  cur ← ptr_ this;
  assert_ NDEBUG (bool_decide (cur ≠ nullptr));;
  mret (LValue cur 0).

(** [C* operator->() const] *)
Definition op_arrow (NDEBUG : bool) (this : obj) : M ptr :=
  cur ← ptr_ this;
  assert_ NDEBUG (bool_decide (cur ≠ nullptr));;
  mret cur.

(** [C* get() const] *)
Definition get (this : obj) : M ptr := ptr_ this.

(** [bool operator==(C* p) const] *)
Definition op_eq (this : obj) (p : ptr) : M bool :=
  cur ← ptr_ this;
  mret (bool_decide (cur = p)).

(** [bool operator!=(C* p) const] *)
Definition op_ne (this : obj) (p : ptr) : M bool :=
  cur ← ptr_ this;
  mret (bool_decide (cur ≠ p)).

(** [void swap(scoped_ptr& p2)] *)
Definition swap (this : obj) (p2 : obj) : M unit :=
  tmp ← ptr_ this;
  v ← ptr_ p2;
  set_ptr_ this v;;
  set_ptr_ p2 tmp.

(** [C* release()] *)
Definition release (this : obj) : M ptr :=
  retVal ← ptr_ this;
  set_ptr_ this nullptr;;
  mret retVal.

End scoped_ptr.

(** ** template <class C> class scoped_array *)

Module scoped_array.

(** Read and write of the private field [C* array_]. *)
Definition array_ (this : obj) : M ptr := λ m,
  match objs m !! this with
  | Some (scoped_array_obj p) => Ok p m
  | _ => Stuck
  end.

Definition set_array_ (this : obj) (v : ptr) : M unit := λ m,
  match objs m !! this with
  | Some (scoped_array_obj _) =>
      Ok () (Mem (<[this := scoped_array_obj v]> (objs m)) (trace m))
  | _ => Stuck
  end.

(** [explicit scoped_array(C* p = nullptr) : array_(p) { }] *)
Definition ctor (this : obj) (p : ptr) : M unit :=
  construct this (scoped_array_obj p).

(** [~scoped_array() { delete[] array_; }] *)
Definition dtor (this : obj) : M unit :=
  p ← array_ this;
  delete_array p;;
  destroy this.

(** [void reset(C* p = nullptr)] *)
Definition reset (this : obj) (p : ptr) : M unit :=
  cur ← array_ this;
  if bool_decide (p ≠ cur) then
    delete_array cur;;
    set_array_ this p
  else mret ().

(** [C& operator[](std::ptrdiff_t i) const]: the argument arrives as a
    [std::ptrdiff_t]; the index is checked first, then the pointer. *)
Definition op_index (NDEBUG : bool) (this : obj) (i : Z) : M lvalue :=
  let i := ptrdiff_t i in
  assert_ NDEBUG (bool_decide (0 ≤ i)%Z);;
  cur ← array_ this;
  assert_ NDEBUG (bool_decide (cur ≠ nullptr));;
  mret (LValue cur i).

(** [C* get() const] *)
Definition get (this : obj) : M ptr := array_ this.

(** [bool operator==(C* p) const] *)
Definition op_eq (this : obj) (p : ptr) : M bool :=
  cur ← array_ this;
  mret (bool_decide (cur = p)).

(** [bool operator!=(C* p) const] *)
Definition op_ne (this : obj) (p : ptr) : M bool :=
  cur ← array_ this;
  mret (bool_decide (cur ≠ p)).

(** [void swap(scoped_array& p2)] *)
Definition swap (this : obj) (p2 : obj) : M unit :=
  tmp ← array_ this;
  v ← array_ p2;
  set_array_ this v;;
  set_array_ p2 tmp.

(** [C* release()] *)
Definition release (this : obj) : M ptr :=
  retVal ← array_ this;
  set_array_ this nullptr;;
  mret retVal.

End scoped_array.

(** ** Both classes at once

    The two classes have the same members up to the field name and the
    delete-expression; [cls] selects one of them. *)

Inductive cls : Type := ScopedPtr | ScopedArray.

(** An object of class [c] whose field holds [p]. *)
Definition wrapper (c : cls) (p : ptr) : object :=
  match c with
  | ScopedPtr => scoped_ptr_obj p
  | ScopedArray => scoped_array_obj p
  end.

(** The deallocation call that class [c] makes on [p]. *)
Definition dealloc (c : cls) (p : ptr) : event :=
  match c with
  | ScopedPtr => Delete p
  | ScopedArray => DeleteArray p
  end.

(** What deleting [p] from class [c] adds to the log. *)
Definition freed (c : cls) (p : ptr) : list event :=
  if bool_decide (p = nullptr) then [] else [dealloc c p].

Definition ctor (c : cls) : obj → ptr → M unit :=
  match c with ScopedPtr => scoped_ptr.ctor | ScopedArray => scoped_array.ctor end.
Definition dtor (c : cls) : obj → M unit :=
  match c with ScopedPtr => scoped_ptr.dtor | ScopedArray => scoped_array.dtor end.
Definition reset (c : cls) : obj → ptr → M unit :=
  match c with ScopedPtr => scoped_ptr.reset | ScopedArray => scoped_array.reset end.
Definition get (c : cls) : obj → M ptr :=
  match c with ScopedPtr => scoped_ptr.get | ScopedArray => scoped_array.get end.
Definition op_eq (c : cls) : obj → ptr → M bool :=
  match c with ScopedPtr => scoped_ptr.op_eq | ScopedArray => scoped_array.op_eq end.
Definition op_ne (c : cls) : obj → ptr → M bool :=
  match c with ScopedPtr => scoped_ptr.op_ne | ScopedArray => scoped_array.op_ne end.
Definition swap (c : cls) : obj → obj → M unit :=
  match c with ScopedPtr => scoped_ptr.swap | ScopedArray => scoped_array.swap end.
Definition release (c : cls) : obj → M ptr :=
  match c with ScopedPtr => scoped_ptr.release | ScopedArray => scoped_array.release end.

(** ** Client programs

    A client of the header is a sequence of calls of public members on
    wrapper objects; results of the calls are dropped here. *)

Inductive call : Type :=
  | Construct (c : cls) (this : obj) (p : ptr)
  | Destruct (c : cls) (this : obj)
  | Reset (c : cls) (this : obj) (p : ptr)
  | Swap (c : cls) (this p2 : obj)
  | Release (c : cls) (this : obj)
  | Get (c : cls) (this : obj)
  | OpEq (c : cls) (this : obj) (p : ptr)
  | OpNe (c : cls) (this : obj) (p : ptr)
  | OpStar (this : obj)
  | OpArrow (this : obj)
  | OpIndex (this : obj) (i : Z).

Definition exec (NDEBUG : bool) (k : call) : M unit :=
  match k with
  | Construct c this p => ctor c this p
  | Destruct c this => dtor c this
  | Reset c this p => reset c this p
  | Swap c this p2 => swap c this p2
  | Release c this => release c this;; mret ()
  | Get c this => get c this;; mret ()
  | OpEq c this p => op_eq c this p;; mret ()
  | OpNe c this p => op_ne c this p;; mret ()
  | OpStar this => scoped_ptr.op_star NDEBUG this;; mret ()
  | OpArrow this => scoped_ptr.op_arrow NDEBUG this;; mret ()
  | OpIndex this i => scoped_array.op_index NDEBUG this i;; mret ()
  end.

Fixpoint run (NDEBUG : bool) (prog : list call) : M unit :=
  match prog with
  | [] => mret ()
  | k :: rest => exec NDEBUG k;; run NDEBUG rest
  end.

(** The program starts with no wrapper alive and an empty log. *)
Definition init : mem := Mem ∅ [].

(** ** Counting *)

(** Number of times the call [e] occurs in a log. *)
Definition calls (e : event) (tr : list event) : nat :=
  length (filter (λ x, x = e) tr).

(** Number of deallocations of [p], of either kind. *)
Definition deallocs (p : ptr) (tr : list event) : nat :=
  calls (Delete p) tr + calls (DeleteArray p) tr.

(** The pointer an object holds. *)
Definition held (o : object) : ptr :=
  match o with
  | scoped_ptr_obj p => p
  | scoped_array_obj p => p
  end.

(** Number of live wrappers that hold [p]. *)
Definition owners (p : ptr) (σ : gmap obj object) : nat :=
  size (filter (λ kv, held kv.2 = p) σ).

(** A call hands [p] to a wrapper: a constructor or a [reset] with
    argument [p]. *)
Definition adopts (p : ptr) (k : call) : nat :=
  match k with
  | Construct _ _ q | Reset _ _ q => if bool_decide (q = p) then 1 else 0
  | _ => 0
  end.

(** Number of times a program hands [p] to a wrapper. *)
Fixpoint adoptions (p : ptr) (prog : list call) : nat :=
  match prog with
  | [] => 0
  | k :: rest => adopts p k + adoptions p rest
  end.

(** [hit q p] is 1 when [q] is the pointer [p] that is being counted. *)
Definition hit (q p : ptr) : nat := if bool_decide (q = p) then 1 else 0.

(** The ownership ledger.

    For a pointer [p], [ledger p m] counts the deallocations of [p] made
    so far plus the live wrappers that still hold [p] and may deallocate
    it later.  No member function raises it, except by the one unit a
    constructor or [reset] adds when the caller hands [p] over. *)

Definition ledger (p : ptr) (m : mem) : nat :=
  deallocs p (trace m) + owners p (objs m).

(** ** Kinds of calls *)

Global Instance cls_eq_dec : EqDecision cls.
Proof. solve_decision. Defined.

(** Calls of the members declared [const]: [get], the two comparisons
    with a raw pointer, [operator*], [operator->] and [operator[]]. *)
Definition is_const (k : call) : bool :=
  match k with
  | Get _ _ | OpEq _ _ _ | OpNe _ _ _ | OpStar _ | OpArrow _ | OpIndex _ _ => true
  | _ => false
  end.

Definition is_release (k : call) : bool :=
  match k with
  | Release _ _ => true
  | _ => false
  end.

(** The wrapper objects a call names: [this], and [p2] for [swap]. *)
Definition targets (k : call) : list obj :=
  match k with
  | Swap _ this p2 => [this; p2]
  | Construct _ this _ | Destruct _ this | Reset _ this _ | Release _ this
  | Get _ this | OpEq _ this _ | OpNe _ this _
  | OpStar this | OpArrow this | OpIndex this _ => [this]
  end.

(** A call hands [p] to a wrapper of class [c]. *)
Definition adopts_by (c : cls) (p : ptr) (k : call) : nat :=
  match k with
  | Construct c' _ q | Reset c' _ q =>
      if bool_decide (wrapper c' q = wrapper c p) then 1 else 0
  | _ => 0
  end.

(** Number of times a program hands [p] to a wrapper of class [c]. *)
Fixpoint adoptions_by (c : cls) (p : ptr) (prog : list call) : nat :=
  match prog with
  | [] => 0
  | k :: rest => adopts_by c p k + adoptions_by c p rest
  end.

(** Number of live wrappers of class [c] that hold [p]. *)
Definition owners_by (c : cls) (p : ptr) (σ : gmap obj object) : nat :=
  size (filter (λ kv, kv.2 = wrapper c p) σ).

(** The ledger of one class: deallocations of [p] with the delete-expression
    of class [c], plus the live wrappers of class [c] that hold [p]. *)
Definition ledger_by (c : cls) (p : ptr) (m : mem) : nat :=
  calls (dealloc c p) (trace m) + owners_by c p (objs m).

(** State-dependent counts.  A call takes [p] into a wrapper when it is
    a constructor on [p], or a [reset(p)] on a wrapper that holds another
    pointer ([reset] with the pointer the wrapper already holds adopts
    nothing).  A call gives [p] up when it is a [release] on a wrapper that
    holds [p]. *)
Definition takes (p : ptr) (k : call) (m : mem) : nat :=
  match k with
  | Construct _ _ q => hit q p
  | Reset _ this q =>
      match objs m !! this with
      | Some o => if bool_decide (q = held o) then 0 else hit q p
      | None => 0
      end
  | _ => 0
  end.

Definition gives (p : ptr) (k : call) (m : mem) : nat :=
  match k with
  | Release _ this =>
      match objs m !! this with
      | Some o => hit (held o) p
      | None => 0
      end
  | _ => 0
  end.

(** Number of adoptions of [p] made while [prog] runs from [m]. *)
Fixpoint adopted (NDEBUG : bool) (p : ptr) (prog : list call) (m : mem) : nat :=
  match prog with
  | [] => 0
  | k :: rest =>
      takes p k m +
      match exec NDEBUG k m with
      | Ok _ m1 => adopted NDEBUG p rest m1
      | _ => 0
      end
  end.

(** Number of times [p] is released while [prog] runs from [m]. *)
Fixpoint released (NDEBUG : bool) (p : ptr) (prog : list call) (m : mem) : nat :=
  match prog with
  | [] => 0
  | k :: rest =>
      gives p k m +
      match exec NDEBUG k m with
      | Ok _ m1 => released NDEBUG p rest m1
      | _ => 0
      end
  end.

(** [hit_by c p o] is 1 when [o] is a wrapper of class [c] holding [p]. *)
Definition hit_by (c : cls) (p : ptr) (o : object) : nat :=
  if bool_decide (o = wrapper c p) then 1 else 0.

(** * Verification *)

(** ** Proof automation for running member functions *)

Ltac unfold_members :=
  unfold ctor, dtor, reset, get, op_eq, op_ne, swap, release,
    scoped_ptr.ctor, scoped_ptr.dtor, scoped_ptr.reset, scoped_ptr.get,
    scoped_ptr.op_eq, scoped_ptr.op_ne, scoped_ptr.swap, scoped_ptr.release,
    scoped_ptr.op_star, scoped_ptr.op_arrow,
    scoped_ptr.ptr_, scoped_ptr.set_ptr_,
    scoped_array.ctor, scoped_array.dtor, scoped_array.reset, scoped_array.get,
    scoped_array.op_eq, scoped_array.op_ne, scoped_array.swap,
    scoped_array.release, scoped_array.op_index,
    scoped_array.array_, scoped_array.set_array_,
    construct, destroy, delete_, delete_array, assert_,
    mbind, M_bind, mret, M_ret, wrapper, freed, dealloc in *.

Ltac run_step :=
  match goal with
  | H : objs ?m !! ?i = _ |- context [objs ?m !! ?i] => rewrite H
  | |- context [<[?i:=_]> _ !! ?i] => rewrite lookup_insert_eq
  | H : ?i ≠ ?j |- context [<[?i:=_]> _ !! ?j] => rewrite (lookup_insert_ne _ i j) by exact H
  | H : ?j ≠ ?i |- context [<[?i:=_]> _ !! ?j] =>
      rewrite (lookup_insert_ne _ i j) by (intros ->; apply H; reflexivity)
  | |- context [bool_decide ?P] =>
      first [ rewrite (bool_decide_eq_true_2 P) by (assumption || congruence || lia)
            | rewrite (bool_decide_eq_false_2 P) by (assumption || congruence || lia) ]
  | |- context [_ ++ []] => rewrite app_nil_r
  end.

Ltac run_members := unfold_members; repeat (cbn [objs trace]; try run_step).

Ltac is_stuck :=
  unfold_members; cbn [objs trace];
  repeat (run_step; cbn [objs trace]); cbn; discriminate.

Ltac same_store :=
  unfold_members; cbn [objs trace];
  repeat (first [run_step | case_bool_decide]; cbn [objs trace]);
  cbn; intros; simplify_eq; lia.

(** ** Member functions, one at a time *)

Section members.
Variable c : cls.
Variables (this : obj) (cur : ptr) (m : mem).
Hypothesis Hlive : objs m !! this = Some (wrapper c cur).

Lemma get_live : get c this m = Ok cur m.
Proof. destruct c; run_members; reflexivity. Qed.

Lemma reset_other p2 :
  p2 ≠ cur →
  reset c this p2 m =
    Ok () (Mem (<[this := wrapper c p2]> (objs m)) (trace m ++ freed c cur)).
Proof.
  intros Hne. destruct c; run_members.
  all: case_bool_decide; cbn [objs trace]; repeat run_step; reflexivity.
Qed.

Lemma reset_same : reset c this cur m = Ok () m.
Proof. destruct c; run_members; reflexivity. Qed.

Lemma release_live :
  release c this m =
    Ok cur (Mem (<[this := wrapper c nullptr]> (objs m)) (trace m)).
Proof. destruct c; run_members; reflexivity. Qed.

Lemma dtor_live :
  dtor c this m = Ok () (Mem (delete this (objs m)) (trace m ++ freed c cur)).
Proof.
  destruct c; run_members.
  all: case_bool_decide; cbn [objs trace]; repeat run_step; reflexivity.
Qed.

Lemma op_eq_live p : op_eq c this p m = Ok (bool_decide (cur = p)) m.
Proof. destruct c; unfold_members; rewrite Hlive; reflexivity. Qed.

Lemma op_ne_live p : op_ne c this p m = Ok (bool_decide (cur ≠ p)) m.
Proof. destruct c; unfold_members; rewrite Hlive; reflexivity. Qed.

End members.

Section swap_members.
Variable c : cls.
Variables (a b : obj) (pa pb : ptr) (m : mem).
Hypothesis Ha : objs m !! a = Some (wrapper c pa).
Hypothesis Hb : objs m !! b = Some (wrapper c pb).

Lemma swap_live :
  swap c a b m =
    Ok () (Mem (<[b := wrapper c pa]> (<[a := wrapper c pb]> (objs m)))
               (trace m)).
Proof.
  destruct (decide (a = b)) as [->|Hab].
  - assert (pa = pb) by (destruct c; simpl in *; congruence). subst pb.
    destruct c; run_members; reflexivity.
  - destruct c; run_members; reflexivity.
Qed.

Lemma swap_twice_objs :
  <[b := wrapper c pb]> (<[a := wrapper c pa]>
    (<[b := wrapper c pa]> (<[a := wrapper c pb]> (objs m)))) = objs m.
Proof.
  apply map_eq; intros i.
  destruct (decide (i = b)) as [->|Hib]; [by rewrite lookup_insert_eq|].
  rewrite lookup_insert_ne by done.
  destruct (decide (i = a)) as [->|Hia]; [by rewrite lookup_insert_eq|].
  by rewrite !lookup_insert_ne by done.
Qed.

End swap_members.

(** ** Counting lemmas *)

Lemma calls_app e tr1 tr2 : calls e (tr1 ++ tr2) = calls e tr1 + calls e tr2.
Proof. unfold calls. by rewrite filter_app, length_app. Qed.

Lemma calls_one_same e : calls e [e] = 1.
Proof. unfold calls. cbn. by rewrite decide_True. Qed.

Lemma calls_one_other e e' : e' ≠ e → calls e [e'] = 0.
Proof. intros He. unfold calls. cbn. by rewrite decide_False. Qed.

Lemma deallocs_app p tr1 tr2 :
  deallocs p (tr1 ++ tr2) = deallocs p tr1 + deallocs p tr2.
Proof. unfold deallocs. rewrite !calls_app. lia. Qed.

Lemma deallocs_freed c q p :
  p ≠ nullptr → deallocs p (freed c q) = hit q p.
Proof.
  intros Hp. unfold freed, hit, deallocs, calls.
  case_bool_decide as Hq.
  - subst q. rewrite bool_decide_eq_false_2 by congruence. reflexivity.
  - destruct c; cbn [dealloc filter list_filter length];
      repeat case_decide; case_bool_decide; simplify_eq; cbn; congruence.
Qed.

Lemma owners_insert_fresh p i o (σ : gmap obj object) :
  σ !! i = None → owners p (<[i := o]> σ) = owners p σ + hit (held o) p.
Proof.
  intros Hi. unfold owners, hit.
  rewrite map_filter_insert. cbn [snd]. case_decide; case_bool_decide; try done.
  - rewrite map_size_insert_None; [lia|].
    apply map_lookup_filter_None. by left.
  - rewrite delete_id by done. lia.
Qed.

Lemma owners_delete p i o (σ : gmap obj object) :
  σ !! i = Some o → owners p σ = owners p (delete i σ) + hit (held o) p.
Proof.
  intros Hi.
  rewrite <-(insert_delete_id σ i o) at 1 by done.
  apply owners_insert_fresh, lookup_delete_eq.
Qed.

Lemma owners_update p i o o' (σ : gmap obj object) :
  σ !! i = Some o →
  owners p (<[i := o']> σ) + hit (held o) p = owners p σ + hit (held o') p.
Proof.
  intros Hi. rewrite <-insert_delete_eq.
  rewrite owners_insert_fresh by apply lookup_delete_eq.
  rewrite (owners_delete p i o σ Hi). lia.
Qed.

Lemma held_wrapper c p : held (wrapper c p) = p.
Proof. by destruct c. Qed.

Lemma owners_swap p c a b pa pb (σ : gmap obj object) :
  σ !! a = Some (wrapper c pa) → σ !! b = Some (wrapper c pb) →
  owners p (<[b := wrapper c pa]> (<[a := wrapper c pb]> σ)) = owners p σ.
Proof.
  intros Ha Hb.
  assert (Hb' : <[a := wrapper c pb]> σ !! b = Some (wrapper c pb)).
  { destruct (decide (a = b)) as [->|Hab].
    - by rewrite lookup_insert_eq.
    - by rewrite lookup_insert_ne. }
  pose proof (owners_update p b _ (wrapper c pa) _ Hb') as H2.
  pose proof (owners_update p a _ (wrapper c pb) _ Ha) as H1.
  rewrite !held_wrapper in *. lia.
Qed.

(** ** The ledger is never raised by the wrappers *)

Lemma exec_ledger NDEBUG k p m m' :
  p ≠ nullptr →
  final (exec NDEBUG k m) = Some m' →
  ledger p m' ≤ ledger p m + adopts p k.
Proof.
  intros Hp. unfold ledger.
  destruct k as [c this q|c this|c this q|c this p2|c this|c this
                |c this q|c this q|this|this|this i]; cbn [exec adopts].
  - (* constructor *)
    destruct (objs m !! this) as [o|] eqn:Hl.
    + destruct c; unfold_members; rewrite Hl; discriminate.
    + assert (ctor c this q m
              = Ok () (Mem (<[this := wrapper c q]> (objs m)) (trace m))) as ->
        by (destruct c; unfold_members; rewrite Hl; reflexivity).
      cbn. intros [= <-]. cbn [objs trace].
      rewrite owners_insert_fresh, held_wrapper by done. unfold hit. lia.
  - (* destructor *)
    destruct (objs m !! this) as [[cur|cur]|] eqn:Hl; destruct c;
      try is_stuck.
    all: match goal with |- context [dtor ?c _ _] =>
        rewrite (dtor_live c this cur m Hl) end; cbn; intros [= <-];
      cbn [objs trace];
      rewrite deallocs_app, (deallocs_freed _ cur p Hp);
      pose proof (owners_delete p this _ _ Hl) as Ho; cbn [held] in Ho; lia.
  - (* reset *)
    destruct (objs m !! this) as [[cur|cur]|] eqn:Hl; destruct c;
      try is_stuck.
    all: match goal with |- context [reset ?c _ _ _] =>
      destruct (decide (q = cur)) as [->|Hne];
      [ rewrite (reset_same c this cur m Hl); cbn; intros [= <-]; lia
      | rewrite (reset_other c this cur m Hl q Hne); cbn; intros [= <-];
        cbn [objs trace];
        rewrite deallocs_app, (deallocs_freed _ cur p Hp);
        pose proof (owners_update p this _ (wrapper c q) _ Hl) as Ho;
        rewrite held_wrapper in Ho; cbn [held] in Ho; unfold hit in *;
        repeat case_bool_decide; simplify_eq; cbn [wrapper] in *; lia ]
      end.
  - (* swap *)
    destruct (objs m !! this) as [[pa|pa]|] eqn:Ha;
      destruct (objs m !! p2) as [[pb|pb]|] eqn:Hb; destruct c;
      try (destruct (decide (this = p2)) as [->|Hab]; simplify_eq; is_stuck).
    all: match goal with |- context [swap ?c _ _ _] =>
      rewrite (swap_live c this p2 pa pb m Ha Hb); cbn; intros [= <-];
      cbn [objs trace];
      pose proof (owners_swap p c this p2 pa pb _ Ha Hb) as Ho;
      cbn [wrapper] in *; lia end.
  - (* release *)
    destruct (objs m !! this) as [[cur|cur]|] eqn:Hl; destruct c;
      try is_stuck.
    all: match goal with |- context [release ?c _] =>
      unfold mbind, M_bind; rewrite (release_live c this cur m Hl); cbn;
      intros [= <-]; cbn [objs trace];
      pose proof (owners_update p this _ (wrapper c nullptr) _ Hl) as Ho;
      rewrite held_wrapper in Ho; cbn [held] in Ho; unfold hit in *;
      rewrite (bool_decide_eq_false_2 (nullptr = p)) in Ho by congruence;
      cbn [wrapper] in *; lia
      end.
  - destruct (objs m !! this) as [[cur|cur]|] eqn:Hl; destruct c; same_store.
  - destruct (objs m !! this) as [[cur|cur]|] eqn:Hl; destruct c; same_store.
  - destruct (objs m !! this) as [[cur|cur]|] eqn:Hl; destruct c; same_store.
  - destruct (objs m !! this) as [[cur|cur]|] eqn:Hl; destruct NDEBUG; same_store.
  - destruct (objs m !! this) as [[cur|cur]|] eqn:Hl; destruct NDEBUG; same_store.
  - destruct (objs m !! this) as [[cur|cur]|] eqn:Hl; destruct NDEBUG; same_store.
Qed.

Lemma run_ledger NDEBUG prog p m m' :
  p ≠ nullptr →
  final (run NDEBUG prog m) = Some m' →
  ledger p m' ≤ ledger p m + adoptions p prog.
Proof.
  intros Hp. revert m. induction prog as [|k rest IH]; intros m; cbn.
  - intros [= <-]. lia.
  - unfold mbind, M_bind.
    pose proof (exec_ledger NDEBUG k p m) as Hk.
    destruct (exec NDEBUG k m) as [[] m1|m1|]; cbn in *.
    + intros Hr. specialize (IH _ Hr). specialize (Hk _ Hp eq_refl). lia.
    + intros [= <-]. specialize (Hk _ Hp eq_refl). lia.
    + discriminate.
Qed.

(** ** Index conversion *)

Lemma ptrdiff_t_in_range (i : Z) :
  (- 2 ^ 63 ≤ i < 2 ^ 63)%Z → ptrdiff_t i = i.
Proof.
  intros Hi. unfold ptrdiff_t. rewrite Z.mod_small by lia. lia.
Qed.

(** ** Const members *)

Lemma exec_const NDEBUG k m m1 :
  is_const k = true → final (exec NDEBUG k m) = Some m1 → m1 = m.
Proof.
  destruct k as [c this q|c this|c this q|c this p2|c this|c this
                |c this q|c this q|this|this|this i]; try discriminate;
    intros _; cbn [exec];
    try destruct c; destruct NDEBUG;
    destruct (objs m !! this) as [[cur|cur]|] eqn:Hl;
    unfold_members; cbn [objs trace];
    repeat (first [rewrite Hl | case_bool_decide]; cbn [objs trace]);
    cbn; congruence.
Qed.

(** ** What one call does to the store *)

Lemma exec_cases NDEBUG k m m' :
  final (exec NDEBUG k m) = Some m' →
  match k with
  | Construct c w q =>
      objs m !! w = None ∧
      m' = Mem (<[w := wrapper c q]> (objs m)) (trace m)
  | Destruct c w =>
      ∃ cur, objs m !! w = Some (wrapper c cur) ∧
             m' = Mem (delete w (objs m)) (trace m ++ freed c cur)
  | Reset c w q =>
      ∃ cur, objs m !! w = Some (wrapper c cur) ∧
             ((q = cur ∧ m' = m) ∨
              (q ≠ cur ∧
               m' = Mem (<[w := wrapper c q]> (objs m))
                        (trace m ++ freed c cur)))
  | Swap c a b =>
      ∃ pa pb, objs m !! a = Some (wrapper c pa) ∧
               objs m !! b = Some (wrapper c pb) ∧
               m' = Mem (<[b := wrapper c pa]> (<[a := wrapper c pb]> (objs m)))
                        (trace m)
  | Release c w =>
      ∃ cur, objs m !! w = Some (wrapper c cur) ∧
             m' = Mem (<[w := wrapper c nullptr]> (objs m)) (trace m)
  | _ => m' = m
  end.
Proof.
  destruct k as [c this q|c this|c this q|c this p2|c this|c this
                |c this q|c this q|this|this|this i];
    try (by apply (exec_const NDEBUG)); cbn [exec].
  - destruct (objs m !! this) as [o|] eqn:Hl.
    + destruct c; unfold_members; rewrite Hl; discriminate.
    + destruct c; unfold_members; rewrite Hl; cbn; intros [= <-]; done.
  - destruct (objs m !! this) as [[cur|cur]|] eqn:Hl; destruct c;
      try is_stuck.
    all: match goal with |- context [dtor ?c _ _] =>
        rewrite (dtor_live c this cur m Hl) end; cbn [final]; intros [= <-];
      by exists cur.
  - destruct (objs m !! this) as [[cur|cur]|] eqn:Hl; destruct c;
      try is_stuck.
    all: match goal with |- context [reset ?c _ _ _] =>
      destruct (decide (q = cur)) as [->|Hne];
      [ rewrite (reset_same c this cur m Hl); cbn [final]; intros [= <-];
        exists cur; split; [done|]; by left
      | rewrite (reset_other c this cur m Hl q Hne); cbn [final];
        intros [= <-]; exists cur; split; [done|]; by right ]
      end.
  - destruct (objs m !! this) as [[pa|pa]|] eqn:Ha;
      destruct (objs m !! p2) as [[pb|pb]|] eqn:Hb; destruct c;
      try (destruct (decide (this = p2)) as [->|Hab]; simplify_eq; is_stuck).
    all: match goal with |- context [swap ?c _ _ _] =>
      rewrite (swap_live c this p2 pa pb m Ha Hb); cbn [final]; intros [= <-];
      by exists pa, pb end.
  - destruct (objs m !! this) as [[cur|cur]|] eqn:Hl; destruct c;
      try is_stuck.
    all: match goal with |- context [release ?c _] =>
      unfold mbind, M_bind; rewrite (release_live c this cur m Hl);
      cbn [final]; intros [= <-]; by exists cur end.
Qed.

(** ** The ledger, exactly *)

Lemma exec_ledger_balance NDEBUG k p m m' :
  p ≠ nullptr →
  final (exec NDEBUG k m) = Some m' →
  ledger p m' + gives p k m = ledger p m + takes p k m.
Proof.
  intros Hp Hrun. apply exec_cases in Hrun. unfold ledger.
  destruct k as [c w q|c w|c w q|c a b|c w|c w|c w q|c w q|w|w|w i];
    cbn [takes gives];
    repeat match goal with
    | H : ∃ _, _ |- _ => destruct H
    | H : _ ∧ _ |- _ => destruct H
    end; subst; cbn [objs trace]; try lia.
  - rewrite owners_insert_fresh, held_wrapper by done. lia.
  - rewrite deallocs_app, (deallocs_freed _ _ p Hp).
    match goal with H : objs m !! w = Some _ |- _ =>
      pose proof (owners_delete p w _ _ H) as Ho end.
    rewrite held_wrapper in Ho. lia.
  - match goal with H : objs m !! w = Some (wrapper c ?cur) |- _ =>
      rename H into Hw; rewrite Hw, held_wrapper;
      pose proof (owners_update p w _ (wrapper c q) _ Hw) as Ho end.
    rewrite !held_wrapper in Ho.
    match goal with H : _ ∨ _ |- _ => destruct H as [[-> ->]|[Hne ->]] end.
    + rewrite bool_decide_eq_true_2 by done. lia.
    + rewrite bool_decide_eq_false_2 by done. cbn [objs trace].
      rewrite deallocs_app, (deallocs_freed _ _ p Hp). lia.
  - match goal with
    | Ha : objs m !! a = Some _, Hb : objs m !! b = Some _ |- _ =>
        rewrite (owners_swap p c a b _ _ _ Ha Hb) end. lia.
  - match goal with H : objs m !! w = Some (wrapper c ?cur) |- _ =>
      rename H into Hw; rewrite Hw, held_wrapper;
      pose proof (owners_update p w _ (wrapper c nullptr) _ Hw) as Ho end.
    rewrite !held_wrapper in Ho. unfold hit in *.
    rewrite (bool_decide_eq_false_2 (nullptr = p)) in Ho by congruence. lia.
Qed.

Lemma run_ledger_balance NDEBUG prog p m m' :
  p ≠ nullptr →
  final (run NDEBUG prog m) = Some m' →
  ledger p m' + released NDEBUG p prog m = ledger p m + adopted NDEBUG p prog m.
Proof.
  intros Hp. revert m. induction prog as [|k rest IH]; intros m;
    cbn [run adopted released].
  - cbn. intros [= <-]. lia.
  - unfold mbind, M_bind.
    pose proof (exec_ledger_balance NDEBUG k p m) as Hk.
    destruct (exec NDEBUG k m) as [[] m1|m1|]; cbn [final] in *.
    + intros Hr. specialize (IH _ Hr). specialize (Hk _ Hp eq_refl). lia.
    + intros [= <-]. specialize (Hk _ Hp eq_refl). lia.
    + discriminate.
Qed.

(** * The claims *)

(** C1.  Deallocation happens at most once per adopted reference.  For any
    client program (any sequence of construct, reset, swap, release,
    destruct and const-member calls on wrappers of both classes) run from
    the initial store, to its normal end or to a failed assert, and any
    non-null pointer [p]: every adoption of [p] (a constructor on [p], or
    a [reset(p)] on a wrapper that holds another pointer; [reset] with the
    pointer already held adopts nothing) is accounted for exactly once, as
    a deallocation of [p], as a [release] of [p], or as a live wrapper
    still holding [p].  So [p] is deallocated at most once per adoption,
    and at most once when it is adopted once.  Destructing a wrapper that
    holds nullptr logs no deallocation; destructing one that holds a
    non-null [q] logs exactly one deallocation, of [q], and ends the
    wrapper's lifetime. *)
Theorem dealloc_at_most_once_per_adoption
    (NDEBUG : bool) (prog : list call) (m : mem) (p : ptr)
    (c : cls) (w : obj) (q : ptr) (m0 : mem) :
  final (run NDEBUG prog init) = Some m →
  p ≠ nullptr →
  objs m0 !! w = Some (wrapper c q) →
  deallocs p (trace m) + released NDEBUG p prog init + owners p (objs m)
    = adopted NDEBUG p prog init ∧
  deallocs p (trace m) ≤ adopted NDEBUG p prog init ∧
  (adopted NDEBUG p prog init ≤ 1 → deallocs p (trace m) ≤ 1) ∧
  (q = nullptr →
     dtor c w m0 = Ok () (Mem (delete w (objs m0)) (trace m0))) ∧
  (q ≠ nullptr →
     dtor c w m0 = Ok () (Mem (delete w (objs m0)) (trace m0 ++ [dealloc c q]))).
Proof.
  intros Hrun Hp Hw.
  pose proof (run_ledger_balance NDEBUG prog p init m Hp Hrun) as Hled.
  unfold ledger in Hled. cbn [init objs trace] in Hled.
  change (deallocs p []) with 0 in Hled.
  change (owners p ∅) with 0 in Hled.
  repeat split.
  - cbn [init] in *. lia.
  - cbn [init] in *. lia.
  - cbn [init] in *. lia.
  - intros ->. rewrite (dtor_live c w nullptr m0 Hw).
    unfold freed. cbn. by rewrite app_nil_r.
  - intros Hq. rewrite (dtor_live c w q m0 Hw).
    unfold freed. by rewrite bool_decide_eq_false_2.
Qed.

Lemma dealloc_at_most_once_per_adoption_witness :
  final (run false [Construct ScopedPtr 1 5%N; Reset ScopedPtr 1 5%N;
                    Reset ScopedPtr 1 6%N; Destruct ScopedPtr 1] init)
    = Some (Mem ∅ [Delete 5%N; Delete 6%N]) ∧
  5%N ≠ nullptr ∧
  objs (Mem {[2 := scoped_array_obj 7%N]} []) !! 2
    = Some (wrapper ScopedArray 7%N) ∧
  adopted false 5%N [Construct ScopedPtr 1 5%N; Reset ScopedPtr 1 5%N;
                     Reset ScopedPtr 1 6%N; Destruct ScopedPtr 1] init = 1 ∧
  deallocs 5%N [Delete 5%N; Delete 6%N] ≤ 1 ∧
  dtor ScopedArray 2 (Mem {[2 := scoped_array_obj 7%N]} [])
    = Ok () (Mem (delete 2 {[2 := scoped_array_obj 7%N]})
                 ([] ++ [DeleteArray 7%N])).
Proof.
  assert (H1 : final (run false [Construct ScopedPtr 1 5%N;
                                 Reset ScopedPtr 1 5%N;
                                 Reset ScopedPtr 1 6%N;
                                 Destruct ScopedPtr 1] init)
               = Some (Mem ∅ [Delete 5%N; Delete 6%N]))
    by (vm_compute; reflexivity).
  assert (H2 : 5%N ≠ nullptr) by discriminate.
  assert (H3 : objs (Mem {[2 := scoped_array_obj 7%N]} []) !! 2
               = Some (wrapper ScopedArray 7%N)) by reflexivity.
  assert (H4 : adopted false 5%N [Construct ScopedPtr 1 5%N;
                                  Reset ScopedPtr 1 5%N;
                                  Reset ScopedPtr 1 6%N;
                                  Destruct ScopedPtr 1] init = 1)
    by (vm_compute; reflexivity).
  destruct (dealloc_at_most_once_per_adoption
              false _ _ 5%N ScopedArray 2 7%N _ H1 H2 H3)
    as (_ & _ & Hone & _ & Hdtor).
  split; [exact H1|]. split; [exact H2|]. split; [exact H3|].
  split; [exact H4|]. split.
  - apply Hone. rewrite H4. lia.
  - apply Hdtor. discriminate.
Defined.

(** C2.  [reset(p2)] with [p2] different from the pointer the wrapper
    holds deallocates the old pointer exactly once (the log grows by that
    one call), or not at all when the old pointer is nullptr, and
    afterwards [get()] returns [p2]. *)
Theorem reset_distinct_deallocates_old
    (c : cls) (w : obj) (cur p2 : ptr) (m : mem) :
  objs m !! w = Some (wrapper c cur) →
  p2 ≠ cur →
  ∃ m', reset c w p2 m = Ok () m' ∧
        (cur ≠ nullptr → trace m' = trace m ++ [dealloc c cur]) ∧
        (cur = nullptr → trace m' = trace m) ∧
        get c w m' = Ok p2 m'.
Proof.
  intros Hw Hne. eexists. split; [apply (reset_other c w cur m Hw p2 Hne)|].
  cbn [trace]. unfold freed. repeat split.
  - intros Hc. by rewrite bool_decide_eq_false_2.
  - intros ->. cbn. by rewrite app_nil_r.
  - apply get_live. cbn [objs]. by rewrite lookup_insert_eq.
Qed.

Lemma reset_distinct_deallocates_old_witness :
  objs (Mem {[1 := scoped_array_obj 5%N]} []) !! 1
    = Some (wrapper ScopedArray 5%N) ∧
  6%N ≠ 5%N ∧
  ∃ m', reset ScopedArray 1 6%N (Mem {[1 := scoped_array_obj 5%N]} [])
          = Ok () m' ∧
        (5%N ≠ nullptr → trace m' = [] ++ [DeleteArray 5%N]) ∧
        (5%N = nullptr → trace m' = []) ∧
        get ScopedArray 1 m' = Ok 6%N m'.
Proof.
  split; [reflexivity|]. split; [discriminate|].
  apply (reset_distinct_deallocates_old ScopedArray 1 5%N 6%N
           (Mem {[1 := scoped_array_obj 5%N]} []));
    [reflexivity | discriminate].
Defined.

(** C3.  Self-reset: [w.reset(w.get())] logs no deallocation and leaves
    the whole store, hence [w.get()], unchanged; this includes a wrapper
    that holds nullptr. *)
Theorem reset_self_is_noop (c : cls) (w : obj) (cur : ptr) (m : mem) :
  objs m !! w = Some (wrapper c cur) →
  (p ← get c w; reset c w p) m = Ok () m ∧
  reset c w cur m = Ok () m ∧
  get c w m = Ok cur m.
Proof.
  intros Hw. unfold mbind at 1, M_bind at 1.
  rewrite (get_live c w cur m Hw), (reset_same c w cur m Hw). done.
Qed.

Lemma reset_self_is_noop_witness :
  objs (Mem {[1 := scoped_ptr_obj nullptr]} [Delete 3%N]) !! 1
    = Some (wrapper ScopedPtr nullptr) ∧
  (p ← get ScopedPtr 1; reset ScopedPtr 1 p)
    (Mem {[1 := scoped_ptr_obj nullptr]} [Delete 3%N])
    = Ok () (Mem {[1 := scoped_ptr_obj nullptr]} [Delete 3%N]).
Proof.
  split; [reflexivity|].
  apply (reset_self_is_noop ScopedPtr 1 nullptr
           (Mem {[1 := scoped_ptr_obj nullptr]} [Delete 3%N])).
  reflexivity.
Defined.

(** C4.  [release()] returns what [get()] returned just before, logs no
    deallocation and leaves [get() == nullptr]; destructing the wrapper
    after that logs no deallocation either. *)
Theorem release_gives_up_ownership (c : cls) (w : obj) (cur : ptr) (m : mem) :
  objs m !! w = Some (wrapper c cur) →
  get c w m = Ok cur m ∧
  ∃ m', release c w m = Ok cur m' ∧
        trace m' = trace m ∧
        get c w m' = Ok nullptr m' ∧
        ∃ m'', dtor c w m' = Ok () m'' ∧ trace m'' = trace m.
Proof.
  intros Hw. split; [by apply get_live|].
  eexists. split; [apply (release_live c w cur m Hw)|].
  assert (Hw' : objs (Mem (<[w := wrapper c nullptr]> (objs m)) (trace m)) !! w
                = Some (wrapper c nullptr)) by apply lookup_insert_eq.
  repeat split.
  - by apply get_live.
  - eexists. split; [apply (dtor_live c w nullptr _ Hw')|].
    cbn. by rewrite app_nil_r.
Qed.

Lemma release_gives_up_ownership_witness :
  objs (Mem {[1 := scoped_ptr_obj 5%N]} []) !! 1
    = Some (wrapper ScopedPtr 5%N) ∧
  ∃ m', release ScopedPtr 1 (Mem {[1 := scoped_ptr_obj 5%N]} []) = Ok 5%N m' ∧
        trace m' = [] ∧
        get ScopedPtr 1 m' = Ok nullptr m' ∧
        ∃ m'', dtor ScopedPtr 1 m' = Ok () m'' ∧ trace m'' = [].
Proof.
  split; [reflexivity|].
  apply (release_gives_up_ownership ScopedPtr 1 5%N
           (Mem {[1 := scoped_ptr_obj 5%N]} [])).
  reflexivity.
Defined.




(** C6.  A scoped_array deallocates with [delete[]]: its destructor and
    its [reset] log a [DeleteArray] call for the array they held.  When a
    scoped_array is constructed on a non-null array and then goes out of
    scope, the log grows by exactly that one call: one more array
    deallocation of the reference and no single-object deallocation. *)
Theorem scoped_array_deallocates_with_delete_array
    (w fresh : obj) (cur p2 : ptr) (m : mem) :
  objs m !! w = Some (scoped_array_obj cur) →
  cur ≠ nullptr →
  p2 ≠ cur →
  objs m !! fresh = None →
  scoped_array.dtor w m
    = Ok () (Mem (delete w (objs m)) (trace m ++ [DeleteArray cur])) ∧
  scoped_array.reset w p2 m
    = Ok () (Mem (<[w := scoped_array_obj p2]> (objs m))
                 (trace m ++ [DeleteArray cur])) ∧
  ∃ m', (scoped_array.ctor fresh cur;; scoped_array.dtor fresh) m = Ok () m' ∧
        objs m' = objs m ∧
        trace m' = trace m ++ [DeleteArray cur] ∧
        calls (DeleteArray cur) (trace m')
          = calls (DeleteArray cur) (trace m) + 1 ∧
        calls (Delete cur) (trace m') = calls (Delete cur) (trace m).
Proof.
  intros Hw Hcur Hne Hfresh. repeat split.
  - etrans; [exact (dtor_live ScopedArray w cur m Hw)|].
    unfold freed. by rewrite bool_decide_eq_false_2.
  - etrans; [exact (reset_other ScopedArray w cur m Hw p2 Hne)|].
    unfold freed. by rewrite bool_decide_eq_false_2.
  - eexists. split.
    + unfold mbind at 1, M_bind at 1, scoped_array.ctor, construct.
      rewrite Hfresh.
      apply (dtor_live ScopedArray fresh cur); cbn [objs].
      apply lookup_insert_eq.
    + cbn [objs trace]. unfold freed.
      rewrite bool_decide_eq_false_2 by done. cbn [dealloc].
      rewrite delete_insert_eq, delete_id by done.
      rewrite !calls_app, calls_one_same, calls_one_other by done.
      repeat split; lia.
Qed.

Lemma scoped_array_deallocates_with_delete_array_witness :
  objs (Mem {[1 := scoped_array_obj 5%N]} []) !! 1
    = Some (scoped_array_obj 5%N) ∧
  5%N ≠ nullptr ∧
  6%N ≠ 5%N ∧
  objs (Mem {[1 := scoped_array_obj 5%N]} []) !! 2 = None ∧
  ∃ m', (scoped_array.ctor 2 5%N;; scoped_array.dtor 2)
          (Mem {[1 := scoped_array_obj 5%N]} []) = Ok () m' ∧
        calls (DeleteArray 5%N) (trace m') = 1 ∧
        calls (Delete 5%N) (trace m') = 0.
Proof.
  split; [reflexivity|]. split; [discriminate|]. split; [discriminate|].
  split; [reflexivity|].
  destruct (scoped_array_deallocates_with_delete_array 1 2 5%N 6%N
              (Mem {[1 := scoped_array_obj 5%N]} []))
    as (_ & _ & m' & Hrun & _ & _ & Harr & Hobj);
    [reflexivity | discriminate | discriminate | reflexivity |].
  exists m'. split; [exact Hrun|]. split; [exact Harr | exact Hobj].
Defined.

(** C7.  [a.swap(b)] for two live wrappers of the same class leaves in
    [a] the pointer [b] held and in [b] the pointer [a] held.  It makes no
    allocator call (the log is unchanged) and no wrapper object comes into
    or goes out of existence. *)
Theorem swap_exchanges_pointers
    (c : cls) (a b : obj) (pa pb : ptr) (m : mem) :
  objs m !! a = Some (wrapper c pa) →
  objs m !! b = Some (wrapper c pb) →
  ∃ m', swap c a b m = Ok () m' ∧
        get c a m' = Ok pb m' ∧
        get c b m' = Ok pa m' ∧
        trace m' = trace m ∧
        dom (objs m') = dom (objs m).
Proof.
  intros Ha Hb. eexists. split; [apply (swap_live c a b pa pb m Ha Hb)|].
  cbn [objs trace]. repeat split.
  - apply get_live. cbn [objs].
    destruct (decide (a = b)) as [->|Hab].
    + assert (pa = pb) by (destruct c; simpl in *; congruence). subst pb.
      by rewrite lookup_insert_eq.
    + rewrite lookup_insert_ne by done. by rewrite lookup_insert_eq.
  - apply get_live. cbn [objs]. by rewrite lookup_insert_eq.
  - rewrite dom_insert_lookup_L, dom_insert_lookup_L; [done|by eexists|].
    destruct (decide (a = b)) as [->|Hab].
    + rewrite lookup_insert_eq. by eexists.
    + rewrite lookup_insert_ne by done. by eexists.
Qed.

Lemma swap_exchanges_pointers_witness :
  objs (Mem {[1 := scoped_ptr_obj 5%N; 2 := scoped_ptr_obj 6%N]} []) !! 1
    = Some (wrapper ScopedPtr 5%N) ∧
  objs (Mem {[1 := scoped_ptr_obj 5%N; 2 := scoped_ptr_obj 6%N]} []) !! 2
    = Some (wrapper ScopedPtr 6%N) ∧
  ∃ m', swap ScopedPtr 1 2
          (Mem {[1 := scoped_ptr_obj 5%N; 2 := scoped_ptr_obj 6%N]} [])
          = Ok () m' ∧
        get ScopedPtr 1 m' = Ok 6%N m' ∧
        get ScopedPtr 2 m' = Ok 5%N m' ∧
        trace m' = [] ∧
        dom (objs m') = dom ({[1 := scoped_ptr_obj 5%N;
                               2 := scoped_ptr_obj 6%N]} : gmap obj object).
Proof.
  split; [reflexivity|]. split; [reflexivity|].
  exact (swap_exchanges_pointers ScopedPtr 1 2 5%N 6%N
           (Mem {[1 := scoped_ptr_obj 5%N; 2 := scoped_ptr_obj 6%N]} [])
           eq_refl eq_refl).
Defined.

(** C8.  [w == p] is true exactly when [w.get()] is [p] (addresses are
    compared; nothing is read through either pointer), [w != p] is its
    negation, and both leave the store as it was. *)
Theorem compare_with_raw_pointer
    (c : cls) (w : obj) (cur p : ptr) (m : mem) :
  objs m !! w = Some (wrapper c cur) →
  ∃ r, op_eq c w p m = Ok r m ∧
       op_ne c w p m = Ok (negb r) m ∧
       (r = true ↔ get c w m = Ok p m).
Proof.
  intros Hw. exists (bool_decide (cur = p)).
  rewrite (op_eq_live c w cur m Hw), (op_ne_live c w cur m Hw),
    (get_live c w cur m Hw).
  repeat split.
  - f_equal. repeat case_bool_decide; simplify_eq; done.
  - intros Hr. apply bool_decide_eq_true_1 in Hr. by subst.
  - intros [= ->]. by apply bool_decide_eq_true_2.
Qed.

Lemma compare_with_raw_pointer_witness :
  objs (Mem {[1 := scoped_array_obj 5%N]} []) !! 1
    = Some (wrapper ScopedArray 5%N) ∧
  ∃ r, op_eq ScopedArray 1 6%N (Mem {[1 := scoped_array_obj 5%N]} [])
         = Ok r (Mem {[1 := scoped_array_obj 5%N]} []) ∧
       op_ne ScopedArray 1 6%N (Mem {[1 := scoped_array_obj 5%N]} [])
         = Ok (negb r) (Mem {[1 := scoped_array_obj 5%N]} []) ∧
       (r = true ↔ get ScopedArray 1 (Mem {[1 := scoped_array_obj 5%N]} [])
                     = Ok 6%N (Mem {[1 := scoped_array_obj 5%N]} [])).
Proof.
  split; [reflexivity|].
  apply (compare_with_raw_pointer ScopedArray 1 5%N 6%N
           (Mem {[1 := scoped_array_obj 5%N]} [])).
  reflexivity.
Defined.

(** C10.  Swapping a wrapper with itself changes nothing and deallocates
    nothing; swapping [a] with [b] twice in a row restores the store, so
    both wrappers hold what they held before. *)
Theorem swap_self_and_twice
    (c : cls) (w a b : obj) (pw pa pb : ptr) (m : mem) :
  objs m !! w = Some (wrapper c pw) →
  objs m !! a = Some (wrapper c pa) →
  objs m !! b = Some (wrapper c pb) →
  swap c w w m = Ok () m ∧
  (swap c a b;; swap c a b) m = Ok () m.
Proof.
  intros Hw Ha Hb. split.
  - rewrite (swap_live c w w pw pw m Hw Hw).
    rewrite insert_insert_eq, insert_id by done. by destruct m.
  - unfold mbind, M_bind.
    rewrite (swap_live c a b pa pb m Ha Hb).
    assert (Hb' : <[b := wrapper c pa]> (<[a := wrapper c pb]> (objs m)) !! b
                  = Some (wrapper c pa)) by apply lookup_insert_eq.
    assert (Ha' : <[b := wrapper c pa]> (<[a := wrapper c pb]> (objs m)) !! a
                  = Some (wrapper c (if decide (a = b) then pa else pb))).
    { case_decide as Hab.
      - subst. apply lookup_insert_eq.
      - rewrite lookup_insert_ne by done. apply lookup_insert_eq. }
    rewrite (swap_live c a b _ pa (Mem _ (trace m)) Ha' Hb').
    cbn [objs trace]. f_equal.
    destruct m as [σ tr]. cbn [objs trace] in *. f_equal.
    case_decide as Hab.
    + subst b. assert (pa = pb) by (destruct c; simpl in *; congruence). subst pb.
      rewrite !insert_insert_eq. by apply insert_id.
    + rewrite <-(swap_twice_objs c a b pa pb (Mem σ tr) Ha Hb) at 2. done.
Qed.

Lemma swap_self_and_twice_witness :
  objs (Mem {[1 := scoped_ptr_obj 5%N; 2 := scoped_ptr_obj 6%N]} []) !! 1
    = Some (wrapper ScopedPtr 5%N) ∧
  objs (Mem {[1 := scoped_ptr_obj 5%N; 2 := scoped_ptr_obj 6%N]} []) !! 2
    = Some (wrapper ScopedPtr 6%N) ∧
  swap ScopedPtr 1 1
    (Mem {[1 := scoped_ptr_obj 5%N; 2 := scoped_ptr_obj 6%N]} [])
    = Ok () (Mem {[1 := scoped_ptr_obj 5%N; 2 := scoped_ptr_obj 6%N]} []) ∧
  (swap ScopedPtr 1 2;; swap ScopedPtr 1 2)
    (Mem {[1 := scoped_ptr_obj 5%N; 2 := scoped_ptr_obj 6%N]} [])
    = Ok () (Mem {[1 := scoped_ptr_obj 5%N; 2 := scoped_ptr_obj 6%N]} []).
Proof.
  split; [reflexivity|]. split; [reflexivity|].
  apply (swap_self_and_twice ScopedPtr 1 1 2 5%N 5%N 6%N
           (Mem {[1 := scoped_ptr_obj 5%N; 2 := scoped_ptr_obj 6%N]} []));
    reflexivity.
Defined.

(** * Further properties of the header *)

(** ** Constructors and accessors *)

Lemma ctor_fresh c w p m :
  objs m !! w = None →
  ctor c w p m = Ok () (Mem (<[w := wrapper c p]> (objs m)) (trace m)).
Proof. intros Hw. destruct c; unfold_members; rewrite Hw; reflexivity. Qed.

(** X1.  A constructor adopts the pointer it is given: on fresh storage
    it returns, [get()] then returns that pointer, no allocator call is
    made and every other wrapper object is as before. *)
Theorem ctor_adopts_pointer (c : cls) (w : obj) (p : ptr) (m : mem) :
  objs m !! w = None →
  ∃ m', ctor c w p m = Ok () m' ∧
        get c w m' = Ok p m' ∧
        trace m' = trace m ∧
        ∀ o, o ≠ w → objs m' !! o = objs m !! o.
Proof.
  intros Hw. exists (Mem (<[w := wrapper c p]> (objs m)) (trace m)).
  split; [destruct c; unfold_members; rewrite Hw; reflexivity|].
  split; [apply get_live; cbn [objs]; apply lookup_insert_eq|].
  split; [reflexivity|].
  intros o Ho. cbn [objs]. by rewrite lookup_insert_ne.
Qed.

Lemma ctor_adopts_pointer_witness :
  objs (Mem {[1 := scoped_ptr_obj 5%N]} [Delete 3%N]) !! 2 = None ∧
  ∃ m', ctor ScopedArray 2 7%N (Mem {[1 := scoped_ptr_obj 5%N]} [Delete 3%N])
          = Ok () m' ∧
        get ScopedArray 2 m' = Ok 7%N m' ∧
        trace m' = [Delete 3%N] ∧
        ∀ o, o ≠ 2 →
             objs m' !! o = ({[1 := scoped_ptr_obj 5%N]} : gmap obj object) !! o.
Proof.
  split; [reflexivity|].
  exact (ctor_adopts_pointer ScopedArray 2 7%N
           (Mem {[1 := scoped_ptr_obj 5%N]} [Delete 3%N]) eq_refl).
Defined.

(** X2.  When its precondition holds each accessor returns the held
    pointer, with or without NDEBUG, and leaves the store alone.  On a
    scoped_ptr that holds a non-null pointer, [operator*] designates the
    object at the pointer and [operator->] returns what [get()] returns.
    On a scoped_array that holds a non-null pointer, [operator[]]
    designates element [i] for every non-negative [std::ptrdiff_t] [i];
    there is no upper-bound check. *)
Theorem accessors_return_held_pointer :
  (∀ (NDEBUG : bool) (w : obj) (p : ptr) (m : mem),
     objs m !! w = Some (scoped_ptr_obj p) →
     p ≠ nullptr →
     scoped_ptr.op_star NDEBUG w m = Ok (LValue p 0) m ∧
     scoped_ptr.op_arrow NDEBUG w m = scoped_ptr.get w m ∧
     scoped_ptr.op_arrow NDEBUG w m = Ok p m) ∧
  (∀ (NDEBUG : bool) (a : obj) (q : ptr) (i : Z) (m : mem),
     objs m !! a = Some (scoped_array_obj q) →
     q ≠ nullptr →
     (0 ≤ i < 2 ^ 63)%Z →
     scoped_array.op_index NDEBUG a i m = Ok (LValue q i) m).
Proof.
  split.
  - intros NDEBUG w p m Hw Hp.
    destruct NDEBUG; unfold_members; rewrite Hw;
      rewrite ?(bool_decide_eq_true_2 (p ≠ 0%N)) by done; done.
  - intros NDEBUG a q i m Ha Hq Hi.
    destruct NDEBUG; unfold_members; cbv zeta;
      rewrite (ptrdiff_t_in_range i) by lia;
      rewrite ?(bool_decide_eq_true_2 (0 ≤ i)%Z) by lia;
      rewrite Ha; rewrite ?(bool_decide_eq_true_2 (q ≠ 0%N)) by done;
      done.
Qed.

Lemma accessors_return_held_pointer_witness :
  objs (Mem {[1 := scoped_ptr_obj 5%N]} []) !! 1 = Some (scoped_ptr_obj 5%N) ∧
  5%N ≠ nullptr ∧
  scoped_ptr.op_arrow false 1 (Mem {[1 := scoped_ptr_obj 5%N]} [])
    = Ok 5%N (Mem {[1 := scoped_ptr_obj 5%N]} []) ∧
  objs (Mem {[2 := scoped_array_obj 7%N]} []) !! 2
    = Some (scoped_array_obj 7%N) ∧
  7%N ≠ nullptr ∧
  (0 ≤ 1000000 < 2 ^ 63)%Z ∧
  scoped_array.op_index true 2 1000000 (Mem {[2 := scoped_array_obj 7%N]} [])
    = Ok (LValue 7%N 1000000) (Mem {[2 := scoped_array_obj 7%N]} []).
Proof.
  destruct accessors_return_held_pointer as [Hptr Harr].
  assert (H5 : 5%N ≠ nullptr) by discriminate.
  assert (H7 : 7%N ≠ nullptr) by discriminate.
  assert (Hi : (0 ≤ 1000000 < 2 ^ 63)%Z) by lia.
  split; [reflexivity|]. split; [exact H5|].
  split; [exact (proj2 (proj2 (Hptr false 1 5%N
                   (Mem {[1 := scoped_ptr_obj 5%N]} []) eq_refl H5)))|].
  split; [reflexivity|]. split; [exact H7|]. split; [exact Hi|].
  exact (Harr true 2 7%N 1000000%Z
           (Mem {[2 := scoped_array_obj 7%N]} []) eq_refl H7 Hi).
Defined.

(** X3.  The const members change nothing: a program made only of calls
    to [get], [==], [!=], [operator*], [operator->] and [operator[]]
    leaves the wrappers and the deallocation log exactly as they were,
    whether it runs to its end or stops at a failed assert. *)
Theorem const_members_change_nothing
    (NDEBUG : bool) (prog : list call) (m m' : mem) :
  forallb is_const prog = true →
  final (run NDEBUG prog m) = Some m' →
  m' = m.
Proof.
  revert m. induction prog as [|k rest IH]; intros m Hc; cbn.
  - by intros [= <-].
  - cbn in Hc. apply andb_prop in Hc as [Hk Hrest].
    assert (Hstep : ∀ m1, final (exec NDEBUG k m) = Some m1 → m1 = m)
      by (intros m1; by apply exec_const).
    unfold mbind, M_bind.
    destruct (exec NDEBUG k m) as [[] m1|m1|]; cbn.
    + rewrite (Hstep m1 eq_refl). by apply IH.
    + intros [= <-]. by apply Hstep.
    + discriminate.
Qed.

Lemma const_members_change_nothing_witness :
  forallb is_const [Get ScopedPtr 1; OpEq ScopedPtr 1 5%N; OpArrow 1;
                    OpStar 1; OpNe ScopedPtr 1 0%N] = true ∧
  final (run false [Get ScopedPtr 1; OpEq ScopedPtr 1 5%N; OpArrow 1;
                    OpStar 1; OpNe ScopedPtr 1 0%N]
           (Mem {[1 := scoped_ptr_obj nullptr]} [Delete 3%N]))
    = Some (Mem {[1 := scoped_ptr_obj nullptr]} [Delete 3%N]) ∧
  Mem {[1 := scoped_ptr_obj nullptr]} [Delete 3%N]
    = Mem {[1 := scoped_ptr_obj nullptr]} [Delete 3%N].
Proof.
  split; [reflexivity|]. split; [reflexivity|].
  exact (const_members_change_nothing false
           [Get ScopedPtr 1; OpEq ScopedPtr 1 5%N; OpArrow 1;
            OpStar 1; OpNe ScopedPtr 1 0%N]
           (Mem {[1 := scoped_ptr_obj nullptr]} [Delete 3%N])
           (Mem {[1 := scoped_ptr_obj nullptr]} [Delete 3%N])
           eq_refl eq_refl).
Defined.

(** ** How the members compose *)

(** X4.  Release followed by [reset] with the released pointer is a round
    trip: the wrapper holds what it held, nothing is deallocated and the
    store is as before. *)
Theorem release_then_reset_restores (c : cls) (w : obj) (cur : ptr) (m : mem) :
  objs m !! w = Some (wrapper c cur) →
  (p ← release c w; reset c w p) m = Ok () m.
Proof.
  intros Hw. unfold mbind at 1, M_bind at 1.
  rewrite (release_live c w cur m Hw).
  set (m1 := Mem (<[w := wrapper c nullptr]> (objs m)) (trace m)).
  assert (Hw1 : objs m1 !! w = Some (wrapper c nullptr))
    by apply lookup_insert_eq.
  destruct (decide (cur = nullptr)) as [->|Hne].
  - rewrite (reset_same c w nullptr m1 Hw1). unfold m1.
    rewrite insert_id by done. by destruct m.
  - rewrite (reset_other c w nullptr m1 Hw1 cur Hne). unfold m1, freed.
    cbn [objs trace]. rewrite bool_decide_eq_true_2 by done.
    rewrite app_nil_r, insert_insert_eq, insert_id by done. by destruct m.
Qed.

Lemma release_then_reset_restores_witness :
  objs (Mem {[1 := scoped_array_obj 5%N]} []) !! 1
    = Some (wrapper ScopedArray 5%N) ∧
  (p ← release ScopedArray 1; reset ScopedArray 1 p)
    (Mem {[1 := scoped_array_obj 5%N]} [])
    = Ok () (Mem {[1 := scoped_array_obj 5%N]} []).
Proof.
  split; [reflexivity|].
  exact (release_then_reset_restores ScopedArray 1 5%N
           (Mem {[1 := scoped_array_obj 5%N]} []) eq_refl).
Defined.

(** X5.  Ownership moves from one wrapper to another with
    [b.reset(a.release())]: afterwards [a] holds nullptr, [b] holds what
    [a] held, and the only deallocation is that of the pointer [b] held
    before (none if that was nullptr). *)
Theorem release_into_reset_moves_ownership
    (c : cls) (a b : obj) (pa pb : ptr) (m : mem) :
  a ≠ b →
  objs m !! a = Some (wrapper c pa) →
  objs m !! b = Some (wrapper c pb) →
  pa ≠ pb →
  ∃ m', (p ← release c a; reset c b p) m = Ok () m' ∧
        get c a m' = Ok nullptr m' ∧
        get c b m' = Ok pa m' ∧
        trace m' = trace m ++ freed c pb ∧
        ∀ o, o ≠ a → o ≠ b → objs m' !! o = objs m !! o.
Proof.
  intros Hab Ha Hb Hne. unfold mbind at 1, M_bind at 1.
  rewrite (release_live c a pa m Ha).
  set (m1 := Mem (<[a := wrapper c nullptr]> (objs m)) (trace m)).
  assert (Hb1 : objs m1 !! b = Some (wrapper c pb))
    by (unfold m1; cbn [objs]; by rewrite lookup_insert_ne).
  rewrite (reset_other c b pb m1 Hb1 pa Hne).
  eexists. split; [reflexivity|]. unfold m1. cbn [objs trace].
  repeat split.
  - apply get_live. cbn [objs].
    rewrite lookup_insert_ne by done. apply lookup_insert_eq.
  - apply get_live. cbn [objs]. apply lookup_insert_eq.
  - intros o Hoa Hob. by rewrite !lookup_insert_ne.
Qed.

Lemma release_into_reset_moves_ownership_witness :
  1 ≠ 2 ∧
  objs (Mem {[1 := scoped_ptr_obj 5%N; 2 := scoped_ptr_obj 6%N]} []) !! 1
    = Some (wrapper ScopedPtr 5%N) ∧
  objs (Mem {[1 := scoped_ptr_obj 5%N; 2 := scoped_ptr_obj 6%N]} []) !! 2
    = Some (wrapper ScopedPtr 6%N) ∧
  5%N ≠ 6%N ∧
  ∃ m', (p ← release ScopedPtr 1; reset ScopedPtr 2 p)
          (Mem {[1 := scoped_ptr_obj 5%N; 2 := scoped_ptr_obj 6%N]} [])
          = Ok () m' ∧
        get ScopedPtr 1 m' = Ok nullptr m' ∧
        get ScopedPtr 2 m' = Ok 5%N m' ∧
        trace m' = [Delete 6%N].
Proof.
  split; [discriminate|]. split; [reflexivity|]. split; [reflexivity|].
  split; [discriminate|].
  destruct (release_into_reset_moves_ownership ScopedPtr 1 2 5%N 6%N
              (Mem {[1 := scoped_ptr_obj 5%N; 2 := scoped_ptr_obj 6%N]} []))
    as (m' & Hrun & Hga & Hgb & Htr & _);
    [discriminate | reflexivity | reflexivity | discriminate |].
  exists m'. split; [exact Hrun|]. split; [exact Hga|]. split; [exact Hgb|].
  exact Htr.
Defined.

(** X6.  A scoped_ptr deallocates with [delete], never [delete[]]: its
    destructor and its [reset] log a [Delete] call for the object they
    held, and a scoped_ptr constructed on a non-null pointer that then goes
    out of scope adds exactly one single-object deallocation of it and no
    array deallocation. *)
Theorem scoped_ptr_deallocates_with_delete
    (w fresh : obj) (cur p2 : ptr) (m : mem) :
  objs m !! w = Some (scoped_ptr_obj cur) →
  cur ≠ nullptr →
  p2 ≠ cur →
  objs m !! fresh = None →
  scoped_ptr.dtor w m
    = Ok () (Mem (delete w (objs m)) (trace m ++ [Delete cur])) ∧
  scoped_ptr.reset w p2 m
    = Ok () (Mem (<[w := scoped_ptr_obj p2]> (objs m))
                 (trace m ++ [Delete cur])) ∧
  ∃ m', (scoped_ptr.ctor fresh cur;; scoped_ptr.dtor fresh) m = Ok () m' ∧
        objs m' = objs m ∧
        trace m' = trace m ++ [Delete cur] ∧
        calls (Delete cur) (trace m') = calls (Delete cur) (trace m) + 1 ∧
        calls (DeleteArray cur) (trace m')
          = calls (DeleteArray cur) (trace m).
Proof.
  intros Hw Hcur Hne Hfresh. repeat split.
  - etrans; [exact (dtor_live ScopedPtr w cur m Hw)|].
    unfold freed. by rewrite bool_decide_eq_false_2.
  - etrans; [exact (reset_other ScopedPtr w cur m Hw p2 Hne)|].
    unfold freed. by rewrite bool_decide_eq_false_2.
  - eexists. split.
    + unfold mbind at 1, M_bind at 1, scoped_ptr.ctor, construct.
      rewrite Hfresh.
      apply (dtor_live ScopedPtr fresh cur); cbn [objs].
      apply lookup_insert_eq.
    + cbn [objs trace]. unfold freed.
      rewrite bool_decide_eq_false_2 by done. cbn [dealloc].
      rewrite delete_insert_eq, delete_id by done.
      rewrite !calls_app, calls_one_same, calls_one_other by done.
      repeat split; lia.
Qed.

Lemma scoped_ptr_deallocates_with_delete_witness :
  objs (Mem {[1 := scoped_ptr_obj 5%N]} []) !! 1
    = Some (scoped_ptr_obj 5%N) ∧
  5%N ≠ nullptr ∧
  6%N ≠ 5%N ∧
  objs (Mem {[1 := scoped_ptr_obj 5%N]} []) !! 2 = None ∧
  ∃ m', (scoped_ptr.ctor 2 5%N;; scoped_ptr.dtor 2)
          (Mem {[1 := scoped_ptr_obj 5%N]} []) = Ok () m' ∧
        calls (Delete 5%N) (trace m') = 1 ∧
        calls (DeleteArray 5%N) (trace m') = 0.
Proof.
  split; [reflexivity|]. split; [discriminate|]. split; [discriminate|].
  split; [reflexivity|].
  destruct (scoped_ptr_deallocates_with_delete 1 2 5%N 6%N
              (Mem {[1 := scoped_ptr_obj 5%N]} []))
    as (_ & _ & m' & Hrun & _ & _ & Hobj & Harr);
    [reflexivity | discriminate | discriminate | reflexivity |].
  exists m'. split; [exact Hrun|]. split; [exact Hobj | exact Harr].
Defined.

(** X7.  [reset()] with the default argument followed by the destructor
    does what the destructor alone does: the held pointer is deallocated
    once, by the [reset], and the destructor then finds nullptr. *)
Theorem reset_null_then_dtor (c : cls) (w : obj) (cur : ptr) (m : mem) :
  objs m !! w = Some (wrapper c cur) →
  (reset c w nullptr;; dtor c w) m = dtor c w m ∧
  dtor c w m = Ok () (Mem (delete w (objs m)) (trace m ++ freed c cur)).
Proof.
  intros Hw. split; [|apply (dtor_live c w cur m Hw)].
  unfold mbind at 1, M_bind at 1.
  rewrite (dtor_live c w cur m Hw).
  destruct (decide (cur = nullptr)) as [->|Hne].
  - rewrite (reset_same c w nullptr m Hw). apply (dtor_live c w nullptr m Hw).
  - rewrite (reset_other c w cur m Hw nullptr) by done.
    set (m1 := Mem _ _).
    assert (Hw1 : objs m1 !! w = Some (wrapper c nullptr))
      by apply lookup_insert_eq.
    rewrite (dtor_live c w nullptr m1 Hw1). unfold m1. cbn [objs trace].
    rewrite delete_insert_eq. unfold freed at 2.
    rewrite bool_decide_eq_true_2 by done. by rewrite app_nil_r.
Qed.

Lemma reset_null_then_dtor_witness :
  objs (Mem {[1 := scoped_ptr_obj 5%N]} []) !! 1
    = Some (wrapper ScopedPtr 5%N) ∧
  (reset ScopedPtr 1 nullptr;; dtor ScopedPtr 1)
    (Mem {[1 := scoped_ptr_obj 5%N]} [])
    = dtor ScopedPtr 1 (Mem {[1 := scoped_ptr_obj 5%N]} []).
Proof.
  split; [reflexivity|].
  exact (proj1 (reset_null_then_dtor ScopedPtr 1 5%N
                  (Mem {[1 := scoped_ptr_obj 5%N]} []) eq_refl)).
Defined.

(** X8.  A second [release()] returns nullptr and changes nothing: after
    one release the wrapper is empty, and releasing an empty wrapper is a
    no-op that hands back nullptr. *)
Theorem release_twice (c : cls) (w : obj) (cur : ptr) (m : mem) :
  objs m !! w = Some (wrapper c cur) →
  ∃ m1, release c w m = Ok cur m1 ∧
        release c w m1 = Ok nullptr m1 ∧
        (cur = nullptr → m1 = m).
Proof.
  intros Hw. eexists. split; [apply (release_live c w cur m Hw)|].
  set (m1 := Mem _ _).
  assert (Hw1 : objs m1 !! w = Some (wrapper c nullptr))
    by apply lookup_insert_eq.
  split.
  - rewrite (release_live c w nullptr m1 Hw1). unfold m1. cbn [objs trace].
    by rewrite insert_insert_eq.
  - intros ->. unfold m1. rewrite insert_id by done. by destruct m.
Qed.

Lemma release_twice_witness :
  objs (Mem {[1 := scoped_ptr_obj 5%N]} []) !! 1
    = Some (wrapper ScopedPtr 5%N) ∧
  ∃ m1, release ScopedPtr 1 (Mem {[1 := scoped_ptr_obj 5%N]} []) = Ok 5%N m1 ∧
        release ScopedPtr 1 m1 = Ok nullptr m1 ∧
        (5%N = nullptr → m1 = Mem {[1 := scoped_ptr_obj 5%N]} []).
Proof.
  split; [reflexivity|].
  exact (release_twice ScopedPtr 1 5%N
           (Mem {[1 := scoped_ptr_obj 5%N]} []) eq_refl).
Defined.

(** ** Swap is symmetric *)

(** X9.  [a.swap(b)] and [b.swap(a)] are the same operation: in every
    store they return alike and leave the same wrappers and log. *)
Theorem swap_commutes (c : cls) (a b : obj) (m : mem) :
  swap c a b m = swap c b a m.
Proof.
  destruct (decide (a = b)) as [->|Hab]; [done|].
  destruct (objs m !! a) as [[pa|pa]|] eqn:Ha;
    destruct (objs m !! b) as [[pb|pb]|] eqn:Hb; destruct c;
    try (match goal with |- swap ?c _ _ _ = _ =>
           rewrite (swap_live c a b pa pb m Ha Hb),
                   (swap_live c b a pb pa m Hb Ha) end;
         by rewrite insert_insert_ne);
    unfold_members; rewrite ?Ha, ?Hb; cbn [objs trace];
    rewrite ?lookup_insert_ne by done; rewrite ?Ha, ?Hb; done.
Qed.

(** ** Frame: calls touch only the wrappers they name *)

Lemma exec_frame NDEBUG k o m m' :
  o ∉ targets k →
  final (exec NDEBUG k m) = Some m' →
  objs m' !! o = objs m !! o.
Proof.
  intros Ho Hrun. apply exec_cases in Hrun.
  destruct k; cbn [targets] in Ho;
    repeat match goal with
    | H : ∃ _, _ |- _ => destruct H
    | H : _ ∧ _ |- _ => destruct H
    | H : _ ∨ _ |- _ => destruct H
    end; subst; cbn [objs]; try done.
  - rewrite lookup_insert_ne; [done|set_solver].
  - rewrite lookup_delete_ne; [done|set_solver].
  - rewrite lookup_insert_ne; [done|set_solver].
  - rewrite !lookup_insert_ne; [done|set_solver..].
  - rewrite lookup_insert_ne; [done|set_solver].
Qed.

(** X10.  A program changes only the wrappers its calls name: a wrapper
    object that is neither [this] nor the [swap] argument of any call of
    the program is, after the program (run to its end or to a failed
    assert), alive or not as before and holds the pointer it held. *)
Theorem unnamed_wrapper_untouched
    (NDEBUG : bool) (prog : list call) (o : obj) (m m' : mem) :
  forallb (λ k, bool_decide (o ∉ targets k)) prog = true →
  final (run NDEBUG prog m) = Some m' →
  objs m' !! o = objs m !! o.
Proof.
  revert m. induction prog as [|k rest IH]; intros m Hall; cbn [run].
  - by intros [= <-].
  - cbn in Hall. apply andb_prop in Hall as [Hk Hrest].
    apply bool_decide_eq_true_1 in Hk.
    pose proof (exec_frame NDEBUG k o m) as Hf.
    unfold mbind, M_bind.
    destruct (exec NDEBUG k m) as [[] m1|m1|]; cbn [final] in *.
    + intros Hr. rewrite (IH m1 Hrest Hr). by apply Hf.
    + intros [= <-]. by apply Hf.
    + discriminate.
Qed.

Lemma unnamed_wrapper_untouched_witness :
  forallb (λ k, bool_decide (3 ∉ targets k))
    [Swap ScopedPtr 1 2; Reset ScopedPtr 1 9%N; Destruct ScopedPtr 2] = true ∧
  final (run false [Swap ScopedPtr 1 2; Reset ScopedPtr 1 9%N;
                    Destruct ScopedPtr 2]
           (Mem {[1 := scoped_ptr_obj 5%N; 2 := scoped_ptr_obj 6%N;
                  3 := scoped_ptr_obj 7%N]} []))
    = Some (Mem {[1 := scoped_ptr_obj 9%N; 3 := scoped_ptr_obj 7%N]}
                [Delete 6%N; Delete 5%N]) ∧
  objs (Mem {[1 := scoped_ptr_obj 9%N; 3 := scoped_ptr_obj 7%N]}
            [Delete 6%N; Delete 5%N]) !! 3
    = objs (Mem {[1 := scoped_ptr_obj 5%N; 2 := scoped_ptr_obj 6%N;
                  3 := scoped_ptr_obj 7%N]} []) !! 3.
Proof.
  assert (H1 : forallb (λ k, bool_decide (3 ∉ targets k))
                 [Swap ScopedPtr 1 2; Reset ScopedPtr 1 9%N;
                  Destruct ScopedPtr 2] = true) by (vm_compute; reflexivity).
  assert (H2 : final (run false [Swap ScopedPtr 1 2; Reset ScopedPtr 1 9%N;
                                 Destruct ScopedPtr 2]
                        (Mem {[1 := scoped_ptr_obj 5%N; 2 := scoped_ptr_obj 6%N;
                               3 := scoped_ptr_obj 7%N]} []))
               = Some (Mem {[1 := scoped_ptr_obj 9%N; 3 := scoped_ptr_obj 7%N]}
                           [Delete 6%N; Delete 5%N]))
    by (vm_compute; reflexivity).
  split; [exact H1|]. split; [exact H2|].
  exact (unnamed_wrapper_untouched false _ 3 _ _ H1 H2).
Defined.

(** ** Two wrappers on one pointer *)

(** X11.  The wrappers do not detect a pointer that is adopted twice:
    when two wrappers are constructed on the same non-null pointer and both
    are destructed, the pointer is deallocated twice.  (The header's
    comments warn that the same object must never be owned by two
    wrappers.) *)
Theorem double_adoption_deallocates_twice
    (c : cls) (a b : obj) (p : ptr) (m : mem) :
  a ≠ b →
  objs m !! a = None →
  objs m !! b = None →
  p ≠ nullptr →
  (ctor c a p;; ctor c b p;; dtor c a;; dtor c b) m
    = Ok () (Mem (objs m) (trace m ++ [dealloc c p; dealloc c p])).
Proof.
  intros Hab Ha Hb Hp.
  unfold mbind at 1, M_bind at 1. rewrite (ctor_fresh c a p m Ha).
  set (m1 := Mem (<[a := wrapper c p]> (objs m)) (trace m)).
  assert (Hb1 : objs m1 !! b = None)
    by (unfold m1; cbn [objs]; by rewrite lookup_insert_ne).
  unfold mbind at 1, M_bind at 1. rewrite (ctor_fresh c b p m1 Hb1).
  set (m2 := Mem (<[b := wrapper c p]> (objs m1)) (trace m1)).
  assert (Ha2 : objs m2 !! a = Some (wrapper c p)).
  { unfold m2, m1. cbn [objs].
    rewrite lookup_insert_ne by done. apply lookup_insert_eq. }
  unfold mbind at 1, M_bind at 1. rewrite (dtor_live c a p m2 Ha2).
  set (m3 := Mem (delete a (objs m2)) (trace m2 ++ freed c p)).
  assert (Hb3 : objs m3 !! b = Some (wrapper c p)).
  { unfold m3, m2. cbn [objs].
    rewrite lookup_delete_ne by done. apply lookup_insert_eq. }
  rewrite (dtor_live c b p m3 Hb3).
  unfold m3, m2, m1, freed. cbn [objs trace].
  rewrite bool_decide_eq_false_2 by done.
  rewrite <-app_assoc. cbn [app]. do 2 f_equal.
  rewrite delete_insert_ne, delete_insert_eq by done.
  rewrite delete_insert_eq.
  by rewrite (delete_id (objs m) a Ha), (delete_id (objs m) b Hb).
Qed.

Lemma double_adoption_deallocates_twice_witness :
  1 ≠ 2 ∧
  objs init !! 1 = None ∧
  objs init !! 2 = None ∧
  5%N ≠ nullptr ∧
  (ctor ScopedPtr 1 5%N;; ctor ScopedPtr 2 5%N;;
   dtor ScopedPtr 1;; dtor ScopedPtr 2) init
    = Ok () (Mem (objs init) (trace init ++ [Delete 5%N; Delete 5%N])).
Proof.
  split; [discriminate|]. split; [reflexivity|]. split; [reflexivity|].
  split; [discriminate|].
  apply (double_adoption_deallocates_twice ScopedPtr 1 2 5%N init);
    [discriminate | reflexivity | reflexivity | discriminate].
Defined.

(** ** A pointer adopted once *)

Lemma owners_held_pos p i c (σ : gmap obj object) :
  σ !! i = Some (wrapper c p) → 1 ≤ owners p σ.
Proof.
  intros Hi. rewrite (owners_delete p i _ σ Hi), held_wrapper.
  unfold hit. rewrite bool_decide_eq_true_2 by done. lia.
Qed.

Lemma exec_ledger_exact NDEBUG k p m m' :
  p ≠ nullptr →
  is_release k = false →
  ledger p m + adopts p k ≤ 1 →
  final (exec NDEBUG k m) = Some m' →
  ledger p m' = ledger p m + adopts p k.
Proof.
  intros Hp Hrel Hone Hrun. apply exec_cases in Hrun. unfold ledger in *.
  destruct k as [c w q|c w|c w q|c a b|c w|c w|c w q|c w q|w|w|w i];
    try discriminate; cbn [adopts] in *;
    repeat match goal with
    | H : ∃ _, _ |- _ => destruct H
    | H : _ ∧ _ |- _ => destruct H
    end; subst; cbn [objs trace]; try lia.
  - rewrite owners_insert_fresh, held_wrapper by done. unfold hit. lia.
  - rewrite deallocs_app, (deallocs_freed _ _ p Hp).
    match goal with H : objs m !! w = Some _ |- _ =>
      pose proof (owners_delete p w _ _ H) as Ho end.
    rewrite held_wrapper in Ho. lia.
  - match goal with H : objs m !! w = Some (wrapper c ?cur) |- _ =>
      rename H into Hw; pose proof (owners_update p w _ (wrapper c q) _ Hw) as Ho;
      pose proof (owners_held_pos cur w c _ Hw) as Hpos end.
    rewrite !held_wrapper in Ho. unfold hit in Ho.
    match goal with H : _ ∨ _ |- _ => destruct H as [[-> ->]|[Hne ->]] end.
    + case_bool_decide; [subst; lia|lia].
    + cbn [objs trace]. rewrite deallocs_app, (deallocs_freed _ _ p Hp).
      unfold hit. repeat case_bool_decide; simplify_eq; lia.
  - match goal with
    | Ha : objs m !! a = Some _, Hb : objs m !! b = Some _ |- _ =>
        rewrite (owners_swap p c a b _ _ _ Ha Hb) end. lia.
Qed.

Lemma run_ledger_exact NDEBUG prog p m m' :
  p ≠ nullptr →
  forallb (λ k, negb (is_release k)) prog = true →
  ledger p m + adoptions p prog ≤ 1 →
  run NDEBUG prog m = Ok () m' →
  ledger p m' = ledger p m + adoptions p prog.
Proof.
  intros Hp. revert m. induction prog as [|k rest IH]; intros m Hall Hone;
    cbn [run adoptions] in *.
  - intros [= <-]. lia.
  - cbn in Hall. apply andb_prop in Hall as [Hk Hrest].
    apply negb_true_iff in Hk.
    pose proof (exec_ledger_exact NDEBUG k p m) as Hstep.
    unfold mbind, M_bind.
    destruct (exec NDEBUG k m) as [[] m1|m1|]; try discriminate.
    intros Hr.
    assert (H1 : ledger p m1 = ledger p m + adopts p k)
      by (apply Hstep; [done|done|lia|done]).
    rewrite (IH m1 Hrest); [lia|lia|done].
Qed.

(** X12.  Exclusive ownership of a pointer adopted once.  In a program
    that hands the non-null pointer [p] to a wrapper exactly once and
    never calls [release], after the program has run to its end [p] is
    either held by exactly one live wrapper and not deallocated, or held
    by none and deallocated exactly once; so when every wrapper has been
    destructed, [p] has been deallocated exactly once: no leak and no
    double deallocation. *)
Theorem adopted_once_owned_or_freed
    (NDEBUG : bool) (prog : list call) (m : mem) (p : ptr) :
  p ≠ nullptr →
  adoptions p prog = 1 →
  forallb (λ k, negb (is_release k)) prog = true →
  run NDEBUG prog init = Ok () m →
  deallocs p (trace m) + owners p (objs m) = 1 ∧
  (objs m = ∅ → deallocs p (trace m) = 1).
Proof.
  intros Hp Hone Hrel Hrun.
  pose proof (run_ledger_exact NDEBUG prog p init m Hp Hrel) as Hex.
  unfold ledger in Hex. cbn [init objs trace] in Hex.
  change (deallocs p []) with 0 in Hex. change (owners p ∅) with 0 in Hex.
  specialize (Hex ltac:(lia) Hrun).
  split; [lia|]. intros Hempty. rewrite Hempty in Hex.
  change (owners p ∅) with 0 in Hex. lia.
Qed.

Lemma adopted_once_owned_or_freed_witness :
  5%N ≠ nullptr ∧
  adoptions 5%N [Construct ScopedArray 1 nullptr; Construct ScopedArray 2 6%N;
                 Reset ScopedArray 1 5%N; Swap ScopedArray 1 2;
                 Destruct ScopedArray 1; Destruct ScopedArray 2] = 1 ∧
  forallb (λ k, negb (is_release k))
    [Construct ScopedArray 1 nullptr; Construct ScopedArray 2 6%N;
     Reset ScopedArray 1 5%N; Swap ScopedArray 1 2;
     Destruct ScopedArray 1; Destruct ScopedArray 2] = true ∧
  run true [Construct ScopedArray 1 nullptr; Construct ScopedArray 2 6%N;
            Reset ScopedArray 1 5%N; Swap ScopedArray 1 2;
            Destruct ScopedArray 1; Destruct ScopedArray 2] init
    = Ok () (Mem ∅ [DeleteArray 6%N; DeleteArray 5%N]) ∧
  deallocs 5%N [DeleteArray 6%N; DeleteArray 5%N] = 1.
Proof.
  assert (H1 : 5%N ≠ nullptr) by discriminate.
  assert (H2 : adoptions 5%N
                 [Construct ScopedArray 1 nullptr; Construct ScopedArray 2 6%N;
                  Reset ScopedArray 1 5%N; Swap ScopedArray 1 2;
                  Destruct ScopedArray 1; Destruct ScopedArray 2] = 1)
    by (vm_compute; reflexivity).
  assert (H3 : forallb (λ k, negb (is_release k))
                 [Construct ScopedArray 1 nullptr; Construct ScopedArray 2 6%N;
                  Reset ScopedArray 1 5%N; Swap ScopedArray 1 2;
                  Destruct ScopedArray 1; Destruct ScopedArray 2] = true)
    by reflexivity.
  assert (H4 : run true
                 [Construct ScopedArray 1 nullptr; Construct ScopedArray 2 6%N;
                  Reset ScopedArray 1 5%N; Swap ScopedArray 1 2;
                  Destruct ScopedArray 1; Destruct ScopedArray 2] init
               = Ok () (Mem ∅ [DeleteArray 6%N; DeleteArray 5%N]))
    by (vm_compute; reflexivity).
  split; [exact H1|]. split; [exact H2|]. split; [exact H3|].
  split; [exact H4|].
  exact (proj2 (adopted_once_owned_or_freed true _ _ 5%N H1 H2 H3 H4) eq_refl).
Defined.

(** ** The delete-expression matches the class that adopted the pointer *)

Lemma hit_by_null c c' p : p ≠ nullptr → hit_by c p (wrapper c' nullptr) = 0.
Proof.
  intros Hp. unfold hit_by. rewrite bool_decide_eq_false_2; [done|].
  destruct c, c'; cbn; congruence.
Qed.

Lemma calls_freed c c' q p :
  p ≠ nullptr → calls (dealloc c p) (freed c' q) = hit_by c p (wrapper c' q).
Proof.
  intros Hp. unfold freed, hit_by. case_bool_decide as Hq.
  - subst q. rewrite bool_decide_eq_false_2; [done|].
    destruct c, c'; cbn; congruence.
  - destruct (decide (dealloc c' q = dealloc c p)) as [He|He].
    + rewrite He, calls_one_same. rewrite bool_decide_eq_true_2; [done|].
      destruct c, c'; cbn in *; congruence.
    + rewrite calls_one_other by done. rewrite bool_decide_eq_false_2; [done|].
      destruct c, c'; cbn in *; congruence.
Qed.

Lemma owners_by_insert_fresh c p i o (σ : gmap obj object) :
  σ !! i = None → owners_by c p (<[i := o]> σ) = owners_by c p σ + hit_by c p o.
Proof.
  intros Hi. unfold owners_by, hit_by.
  rewrite map_filter_insert. cbn [snd]. case_decide; case_bool_decide; try done.
  - rewrite map_size_insert_None; [lia|].
    apply map_lookup_filter_None. by left.
  - rewrite delete_id by done. lia.
Qed.

Lemma owners_by_delete c p i o (σ : gmap obj object) :
  σ !! i = Some o → owners_by c p σ = owners_by c p (delete i σ) + hit_by c p o.
Proof.
  intros Hi.
  rewrite <-(insert_delete_id σ i o) at 1 by done.
  apply owners_by_insert_fresh, lookup_delete_eq.
Qed.

Lemma owners_by_update c p i o o' (σ : gmap obj object) :
  σ !! i = Some o →
  owners_by c p (<[i := o']> σ) + hit_by c p o
    = owners_by c p σ + hit_by c p o'.
Proof.
  intros Hi. rewrite <-insert_delete_eq.
  rewrite owners_by_insert_fresh by apply lookup_delete_eq.
  rewrite (owners_by_delete c p i o σ Hi). lia.
Qed.

Lemma owners_by_swap c p c' a b pa pb (σ : gmap obj object) :
  σ !! a = Some (wrapper c' pa) → σ !! b = Some (wrapper c' pb) →
  owners_by c p (<[b := wrapper c' pa]> (<[a := wrapper c' pb]> σ))
    = owners_by c p σ.
Proof.
  intros Ha Hb.
  assert (Hb' : <[a := wrapper c' pb]> σ !! b = Some (wrapper c' pb)).
  { destruct (decide (a = b)) as [->|Hab].
    - by rewrite lookup_insert_eq.
    - by rewrite lookup_insert_ne. }
  pose proof (owners_by_update c p b _ (wrapper c' pa) _ Hb') as H2.
  pose proof (owners_by_update c p a _ (wrapper c' pb) _ Ha) as H1.
  lia.
Qed.

Lemma exec_ledger_by NDEBUG k c p m m' :
  p ≠ nullptr →
  final (exec NDEBUG k m) = Some m' →
  ledger_by c p m' ≤ ledger_by c p m + adopts_by c p k.
Proof.
  intros Hp Hrun. apply exec_cases in Hrun. unfold ledger_by.
  destruct k as [c' w q|c' w|c' w q|c' a b|c' w|c' w|c' w q|c' w q|w|w|w i];
    cbn [adopts_by];
    repeat match goal with
    | H : ∃ _, _ |- _ => destruct H
    | H : _ ∧ _ |- _ => destruct H
    | H : _ ∨ _ |- _ => destruct H
    end; subst; cbn [objs trace]; try lia.
  - rewrite owners_by_insert_fresh by done. unfold hit_by. lia.
  - rewrite calls_app, (calls_freed c c' _ p Hp).
    match goal with H : objs m !! w = Some _ |- _ =>
      pose proof (owners_by_delete c p w _ _ H) as Ho end. lia.
  - rewrite calls_app, (calls_freed c c' _ p Hp).
    match goal with H : objs m !! w = Some _ |- _ =>
      pose proof (owners_by_update c p w _ (wrapper c' q) _ H) as Ho end.
    unfold hit_by in *. repeat case_bool_decide; simplify_eq; lia.
  - match goal with
    | Ha : objs m !! a = Some _, Hb : objs m !! b = Some _ |- _ =>
        rewrite (owners_by_swap c p c' a b _ _ _ Ha Hb) end. lia.
  - match goal with H : objs m !! w = Some _ |- _ =>
      pose proof (owners_by_update c p w _ (wrapper c' nullptr) _ H) as Ho end.
    rewrite (hit_by_null c c' p Hp) in Ho. lia.
Qed.

Lemma run_ledger_by NDEBUG prog c p m m' :
  p ≠ nullptr →
  final (run NDEBUG prog m) = Some m' →
  ledger_by c p m' ≤ ledger_by c p m + adoptions_by c p prog.
Proof.
  intros Hp. revert m. induction prog as [|k rest IH]; intros m; cbn.
  - intros [= <-]. lia.
  - unfold mbind, M_bind.
    pose proof (exec_ledger_by NDEBUG k c p m) as Hk.
    destruct (exec NDEBUG k m) as [[] m1|m1|]; cbn in *.
    + intros Hr. specialize (IH _ Hr). specialize (Hk _ Hp eq_refl). lia.
    + intros [= <-]. specialize (Hk _ Hp eq_refl). lia.
    + discriminate.
Qed.

(** X13.  The deallocation always has the kind of the class that adopted
    the pointer.  Over any program, [delete p] is called at most as often
    as [p] was handed to a scoped_ptr, and [delete[] p] at most as often as
    [p] was handed to a scoped_array (in each case counting also the live
    wrappers of that class still holding [p]); so a pointer handed only to
    scoped_array wrappers is never passed to [delete], and one handed only
    to scoped_ptr wrappers never to [delete[]], whatever swaps, resets and
    releases happen in between. *)
Theorem dealloc_kind_matches_adopting_class
    (NDEBUG : bool) (prog : list call) (m : mem) (c : cls) (p : ptr) :
  final (run NDEBUG prog init) = Some m →
  p ≠ nullptr →
  calls (dealloc c p) (trace m) + owners_by c p (objs m)
    ≤ adoptions_by c p prog ∧
  (adoptions_by c p prog = 0 → calls (dealloc c p) (trace m) = 0).
Proof.
  intros Hrun Hp.
  pose proof (run_ledger_by NDEBUG prog c p init m Hp Hrun) as Hled.
  unfold ledger_by in Hled. cbn [init objs trace] in Hled.
  change (calls (dealloc c p) []) with 0 in Hled.
  change (owners_by c p ∅) with 0 in Hled.
  split; lia.
Qed.

Lemma dealloc_kind_matches_adopting_class_witness :
  final (run false [Construct ScopedArray 1 5%N; Construct ScopedArray 2 6%N;
                    Swap ScopedArray 1 2; Reset ScopedArray 2 7%N;
                    Destruct ScopedArray 1] init)
    = Some (Mem {[2 := scoped_array_obj 7%N]}
                [DeleteArray 5%N; DeleteArray 6%N]) ∧
  5%N ≠ nullptr ∧
  (adoptions_by ScopedPtr 5%N
     [Construct ScopedArray 1 5%N; Construct ScopedArray 2 6%N;
      Swap ScopedArray 1 2; Reset ScopedArray 2 7%N;
      Destruct ScopedArray 1] = 0 →
   calls (Delete 5%N) [DeleteArray 5%N; DeleteArray 6%N] = 0).
Proof.
  assert (H1 : final (run false
                        [Construct ScopedArray 1 5%N; Construct ScopedArray 2 6%N;
                         Swap ScopedArray 1 2; Reset ScopedArray 2 7%N;
                         Destruct ScopedArray 1] init)
               = Some (Mem {[2 := scoped_array_obj 7%N]}
                           [DeleteArray 5%N; DeleteArray 6%N]))
    by (vm_compute; reflexivity).
  assert (H2 : 5%N ≠ nullptr) by discriminate.
  split; [exact H1|]. split; [exact H2|].
  exact (proj2 (dealloc_kind_matches_adopting_class
                  false _ _ ScopedPtr 5%N H1 H2)).
Defined.
